(** * Browser-side form controllers of the registration site

    Two scripts are verified here:

    - the S3 upload controller (a button wired to a hidden file input, a
      signed policy fetched before each upload, the upload itself);
    - the confirmation form controller ([confirmation.js]: validation,
      one PUT to [/admits], success and error transitions).

    Both scripts are event handlers over the DOM.  The DOM is an explicit
    store, elements are referred to by their position in document order,
    and everything a handler does to the outside world (network requests,
    the file dialog, the console) is recorded.  The definitions come
    first, the properties after them. *)

From Stdlib Require Import ZArith NArith String Ascii Bool List Lia.
From stdpp Require Import base list strings.

Open Scope string_scope.
Open Scope list_scope.

(** ** JavaScript and jQuery primitives used by the scripts *)

Module JS.

(** [s.indexOf(pat)]: position of the first occurrence, [-1] if none. *)
Definition indexOf (s pat : string) : Z :=
  match String.index 0 pat s with
  | Some n => Z.of_nat n
  | None => (-1)%Z
  end.

(** [strip_prefix pat s]: what follows [pat] in [s] when [s] starts with it. *)
Fixpoint strip_prefix (pat s : string) : option string :=
  match pat, s with
  | EmptyString, _ => Some s
  | String a pat', String b s' =>
      if Ascii.eqb a b then strip_prefix pat' s' else None
  | String _ _, EmptyString => None
  end.

(** [s.replace(pat, rep)] with a string pattern: only the first occurrence
    is replaced ([rep] holds no [$] here). *)
Fixpoint replace (pat rep s : string) : string :=
  match strip_prefix pat s with
  | Some rest => rep +:+ rest
  | None =>
      match s with
      | EmptyString => EmptyString
      | String c s' => String c (replace pat rep s')
      end
  end.

(** [$.grep(elems, callback, invert)]: the loop of jQuery, the callback
    receiving the element and its index. *)
Fixpoint grep_from {A} (i : nat) (elems : list A)
    (callback : A → nat → bool) (invert : bool) : list A :=
  match elems with
  | [] => []
  | e :: rest =>
      let callbackInverse := negb (callback e i) in
      let callbackExpect := negb invert in
      if negb (Bool.eqb callbackInverse callbackExpect)
      then e :: grep_from (S i) rest callback invert
      else grep_from (S i) rest callback invert
  end.

Definition grep {A} (elems : list A) (callback : A → nat → bool)
    (invert : bool) : list A :=
  grep_from 0 elems callback invert.

(** [addClass] adds a class unless the element has it, [removeClass]
    removes every occurrence. *)
Definition addClass (c : string) (classes : list string) : list string :=
  if existsb (String.eqb c) classes then classes else classes ++ [c].

Definition removeClass (c : string) (classes : list string) : list string :=
  List.filter (λ x, negb (String.eqb c x)) classes.

Definition hasClass (c : string) (classes : list string) : bool :=
  existsb (String.eqb c) classes.

End JS.

(** ** The upload controller *)

Module Upload.

(** *** The form's DOM *)

(** An [<input>] of the form.  The inputs of a form are kept in document
    order and an element is referred to by its position, so that an array
    of elements (as [toArray] returns) shares the elements with the page. *)
Record Input := {
  name : string;
  type : string;
  value : string;
}.

(** The one click handler the script binds:
    [function() { form.find('input[type=file]').click(); }]. *)
Inductive Handler := ClickFileInput.

(** A [div] matched by [div[class*=s3][class*=upload][class*=button]]. *)
Record Button := {
  classes : list string;
  text : string;
  click : list Handler;
}.

(** The policy endpoint's answer. *)
Record Params := {
  key : string;
  policy : string;
  signature : string;
}.

(** The [data] object the upload widget hands to its [add] callback; the
    widget makes a new object for each selection, [data_id] is its identity. *)
Record Data := {
  data_id : nat;
  files : list string;
}.

(** What the script does to the outside world. *)
Inductive Action :=
| FileDialog (input : nat)
| Get (url : option string) (id : nat)
| Post (url : option string) (fields : list (string * string)) (data : Data)
| ConsoleLog (msg : string).

(** The page as one instance of the [each] body sees it, with the options
    given to [form.fileupload] and the policy requests in flight (each one
    the closure passed to [done], holding its [data]). *)
Record State := {
  inputs : list Input;
  buttons : list Button;
  url : option string;
  formData : list nat;
  pending : list Data;
  next_id : nat;
}.

Definition set_inputs (ins : list Input) (st : State) : State :=
  {| inputs := ins; buttons := buttons st; url := url st;
     formData := formData st; pending := pending st; next_id := next_id st |}.

Definition set_buttons (bs : list Button) (st : State) : State :=
  {| inputs := inputs st; buttons := bs; url := url st;
     formData := formData st; pending := pending st; next_id := next_id st |}.

Definition set_pending (ps : list Data) (st : State) : State :=
  {| inputs := inputs st; buttons := buttons st; url := url st;
     formData := formData st; pending := ps; next_id := next_id st |}.

Definition set_next_id (n : nat) (st : State) : State :=
  {| inputs := inputs st; buttons := buttons st; url := url st;
     formData := formData st; pending := pending st; next_id := n |}.

(** *** jQuery over the form *)

(** [form.find(selector)]: the matching inputs, in document order. *)
Definition find (selector : Input → bool) (dom : list Input) : list nat :=
  List.filter
    (λ i, match dom !! i with Some e => selector e | None => false end)
    (seq 0 (length dom)).

(** The selectors [input], [input[name=n]] and [input[type=t]]. *)
Definition input : Input → bool := λ _, true.
Definition input_name (n : string) : Input → bool := λ e, String.eqb (name e) n.
Definition input_type (t : string) : Input → bool := λ e, String.eqb (type e) t.

(** [.val()]: the value of the first element, [undefined] on an empty set. *)
Definition val (sel : list nat) (dom : list Input) : option string :=
  match sel with
  | [] => None
  | r :: _ => value <$> dom !! r
  end.

(** [.val(v)]: sets the value of every element of the set. *)
Definition set_val (sel : list nat) (v : string) (dom : list Input) : list Input :=
  imap (λ i e, if existsb (Nat.eqb i) sel
               then {| name := name e; type := type e; value := v |}
               else e) dom.

(** [element.name] for an element of an array of elements. *)
Definition element_name (dom : list Input) (element : nat) : string :=
  match dom !! element with
  | Some e => name e
  | None => ""
  end.

(** [.text()] of a set concatenates, [.text(s)] sets every element. *)
Definition get_text (bs : list Button) : string :=
  String.concat "" (text <$> bs).

Definition set_text (s : string) (b : Button) : Button :=
  {| classes := classes b; text := s; click := click b |}.

Definition bind_click (h : Handler) (b : Button) : Button :=
  {| classes := classes b; text := text b; click := click b ++ [h] |}.

Definition unbind_click (b : Button) : Button :=
  {| classes := classes b; text := text b; click := [] |}.

Definition addClass (c : string) (b : Button) : Button :=
  {| classes := JS.addClass c (classes b); text := text b; click := click b |}.

(** *** The script *)

Definition getSanitizedData (form : list Input) : list nat :=
  let fullData := find input form in
  let publicData :=
    JS.grep fullData
      (λ element index,
         (JS.indexOf (element_name form element) "x-amz-meta-" =? 0)%Z)
      true in
  let formData :=
    JS.grep publicData
      (λ element index, String.eqb (element_name form element) "file")
      true in
  formData.

(** The body of [$('.s3.upload.form').each]: bind the click handler, prefix
    the label, set the widget up. *)
Definition init (ins : list Input) (bs : list Button) : State :=
  let bs1 := bind_click ClickFileInput <$> bs in
  let bs2 := set_text ("Upload " +:+ get_text bs1) <$> bs1 in
  {| inputs := ins;
     buttons := bs2;
     url := val (find (input_name "x-amz-meta-bucket_url") ins) ins;
     formData := getSanitizedData ins;
     pending := [];
     next_id := 0 |}.

(** Running a click handler: [.click()] on every file input of the form
    opens its file dialog. *)
Definition run_handler (st : State) (h : Handler) : list Action :=
  match h with
  | ClickFileInput => FileDialog <$> find (input_type "file") (inputs st)
  end.

(** The multipart fields of an upload: name and value of each element of
    the [formData] array, read from the page when the request is made. *)
Definition form_fields (st : State) : list (string * string) :=
  omap (λ r, (λ e, (name e, value e)) <$> inputs st !! r) (formData st).

(** [data.submit()]. *)
Definition submit (data : Data) (st : State) : State * list Action :=
  (st, [Post (url st) (form_fields st) data]).

(** The [add] callback. *)
Definition add (data : Data) (st : State) : State * list Action :=
  let policyEndpoint :=
    val (find (input_name "x-amz-meta-policy_endpoint") (inputs st)) (inputs st) in
  (set_pending (pending st ++ [data]) st, [Get policyEndpoint (data_id data)]).

(** The function given to [$.get(policyEndpoint).done]. *)
Definition policy_done (data : Data) (params : Params) (st : State)
    : State * list Action :=
  let dom1 := set_val (find (input_name "key") (inputs st)) (key params) (inputs st) in
  let dom2 := set_val (find (input_name "policy") dom1) (policy params) dom1 in
  let dom3 := set_val (find (input_name "signature") dom2) (signature params) dom2 in
  submit data (set_inputs dom3 st).

(** The [done] callback. *)
Definition done (st : State) : State * list Action :=
  let bs1 := addClass "completed" <$> buttons st in
  let bs2 := unbind_click <$> bs1 in
  let label := JS.replace "Upload " "" (get_text bs2) +:+ " Uploaded!" in
  let bs3 := set_text label <$> bs2 in
  (set_buttons bs3 st, [ConsoleLog "done"]).

(** *** Events *)

Inductive Event :=
| Click (button : nat)
| Add (files : list string)
| PolicyDone (id : nat) (params : Params)
| PolicyFail (id : nat)
| Done.

Definition is_request (id : nat) (d : Data) : bool := Nat.eqb (data_id d) id.

Definition settle (id : nat) (st : State) : State :=
  set_pending (List.filter (λ d, negb (is_request id d)) (pending st)) st.

(** One event: a click runs the button's handlers; a selection makes the
    widget call [add] with a new [data] (the script's [add] stands in for
    the widget's own, so nothing is uploaded before [data.submit()]); a
    policy answer runs the [done] continuation of its request when it
    succeeded, and nothing when it failed (the script gives [$.get] no
    failure handler); a completed upload makes the widget call [done]. *)
Definition step (st : State) (ev : Event) : State * list Action :=
  match ev with
  | Click b =>
      match buttons st !! b with
      | Some button => (st, flat_map (run_handler st) (click button))
      | None => (st, [])
      end
  | Add fs =>
      add {| data_id := next_id st; files := fs |}
          (set_next_id (S (next_id st)) st)
  | PolicyDone id params =>
      match List.find (is_request id) (pending st) with
      | Some data => policy_done data params (settle id st)
      | None => (st, [])
      end
  | PolicyFail id => (settle id st, [])
  | Done => done st
  end.

(** A run records each event followed by what the script did on it. *)
Inductive Entry :=
| In_ (ev : Event)
| Out (a : Action).

Fixpoint run (st : State) (evs : list Event) : State * list Entry :=
  match evs with
  | [] => (st, [])
  | ev :: evs' =>
      let '(st1, acts) := step st ev in
      let '(st2, tr) := run st1 evs' in
      (st2, In_ ev :: (Out <$> acts) ++ tr)
  end.

(** The fields the interface description gives for the metadata set: the
    inputs whose name starts with [x-amz-meta-], the [file] input left out. *)
Definition meta_prefixed_fields (form : list Input) : list nat :=
  find (λ e, String.prefix "x-amz-meta-" (name e) && negb (String.eqb (name e) "file")) form.

(** *** Notions used to state and prove the properties *)

(** [write n v] is what [form.find('input[name=n]').val(v)] does to each
    input of the form. *)
Definition write (n v : string) (e : Input) : Input :=
  if String.eqb (name e) n
  then {| name := name e; type := type e; value := v |}
  else e.

Definition policy_endpoint (dom : list Input) : option string :=
  val (find (input_name "x-amz-meta-policy_endpoint") dom) dom.

(** What stays of the form along a run: the names of its inputs, the
    [formData] array, the policy endpoint; and every policy request in
    flight has had its GET sent. *)
Definition reachable_from (ins : list Input) (st : State) (tr : list Entry) : Prop :=
  name <$> inputs st = name <$> ins
  ∧ formData st = getSanitizedData ins
  ∧ policy_endpoint (inputs st) = policy_endpoint ins
  ∧ ∀ d, d ∈ pending st → Out (Get (policy_endpoint ins) (data_id d)) ∈ tr.

Definition unbound (st : State) : Prop := ∀ b, b ∈ buttons st → click b = [].

(** Requests in flight are younger than [next_id], and an upload already
    sent is neither in flight nor to come. *)
Definition fresh_ids (st : State) (tr : list Entry) : Prop :=
  (∀ d, d ∈ pending st → (data_id d < next_id st)%nat)
  ∧ ∀ u fields d, Out (Post u fields d) ∈ tr →
      (data_id d < next_id st)%nat ∧ ∀ d', d' ∈ pending st → data_id d' ≠ data_id d.

(** A request that was settled stays so, and was never uploaded. *)
Definition settled (id : nat) (st : State) (tr : list Entry) : Prop :=
  (id < next_id st)%nat
  ∧ (∀ d, d ∈ pending st → data_id d ≠ id)
  ∧ ∀ u fields d, Out (Post u fields d) ∈ tr → data_id d ≠ id.

Definition sample_form : list Input :=
  [ {| name := "x-amz-meta-bucket_url"; type := "hidden"; value := "https://bucket.s3" |};
    {| name := "x-amz-meta-policy_endpoint"; type := "hidden"; value := "/policy" |};
    {| name := "key"; type := "hidden"; value := "" |};
    {| name := "policy"; type := "hidden"; value := "" |};
    {| name := "signature"; type := "hidden"; value := "" |};
    {| name := "file"; type := "file"; value := "" |} ].

Definition sample_button : Button :=
  {| classes := ["ui"; "s3"; "upload"; "button"]; text := "Resume"; click := [] |}.

Definition sample_params : Params :=
  {| key := "resumes/42.pdf"; policy := "eyJleHAiOjF9"; signature := "c2ln" |}.

Definition sample_data : Data := {| data_id := 0; files := ["cv.pdf"] |}.

(** *** Notions for the set-up, the requests and the label *)

(** The option [url] of the widget, as [init] reads it. *)
Definition bucket_url (ins : list Input) : option string :=
  val (find (input_name "x-amz-meta-bucket_url") ins) ins.

(** The names of the inputs the policy is written to. *)
Definition is_policy_name (n : string) : bool :=
  String.eqb n "key" || String.eqb n "policy" || String.eqb n "signature".

(** An input once the three writes of an answer are done. *)
Definition populate (params : Params) (e : Input) : Input :=
  write "signature" (signature params)
    (write "policy" (policy params) (write "key" (key params) e)).

(** The inputs [getSanitizedData] keeps. *)
Definition kept (e : Input) : bool :=
  negb (String.prefix "x-amz-meta-" (name e)) && negb (String.eqb (name e) "file").

(** An input of the page against the input of the form it comes from: same
    name and type, and the same value unless it is a policy input. *)
Definition same_input (e e' : Input) : Prop :=
  name e' = name e ∧ type e' = type e
  ∧ (is_policy_name (name e) = false → value e' = value e).



(** The selections whose policy request is in flight were made before. *)
Definition selected_before (st : State) (tr : list Entry) : Prop :=
  ∀ d, d ∈ pending st → In_ (Add (files d)) ∈ tr.


End Upload.

(** ** JSON *)

Module Json.

(** JavaScript values as [JSON.parse] makes them and [JSON.stringify] takes
    them.  Strings are byte strings (UTF-8), a number is kept as its text,
    the properties of an object are in insertion order. *)
#[warnings="-register-all"]
Inductive Value :=
| JUndefined
| JNull
| JBool (b : bool)
| JNumber (text : string)
| JString (s : string)
| JArray (items : list Value)
| JObject (props : list (string * Value)).

Definition dquote : ascii := "034"%char.
Definition backslash : ascii := "092"%char.

(** [q s] is [s] with every apostrophe turned into a double quote, to write
    JSON texts down: [q "{'a':'b'}"]. *)
Fixpoint q (s : string) : string :=
  match s with
  | EmptyString => EmptyString
  | String c s' => String (if Ascii.eqb c "'" then dquote else c) (q s')
  end.

(** *** [JSON.stringify] *)

Definition hex_digit (n : nat) : ascii :=
  nth n ["0"; "1"; "2"; "3"; "4"; "5"; "6"; "7"; "8"; "9";
         "a"; "b"; "c"; "d"; "e"; "f"]%char "0"%char.

(** One character of a quoted string: the short escapes, [\u00XX] for the
    other control characters, anything else as it is. *)
Definition quote_char (c : ascii) : string :=
  let n := nat_of_ascii c in
  if Nat.eqb n 8 then String backslash "b"
  else if Nat.eqb n 9 then String backslash "t"
  else if Nat.eqb n 10 then String backslash "n"
  else if Nat.eqb n 12 then String backslash "f"
  else if Nat.eqb n 13 then String backslash "r"
  else if Nat.eqb n 34 then String backslash (String dquote "")
  else if Nat.eqb n 92 then String backslash (String backslash "")
  else if Nat.ltb n 32
       then String backslash
              (String "u" (String "0" (String "0"
                 (String (hex_digit (n / 16)) (String (hex_digit (n mod 16)) "")))))
  else String c "".

Fixpoint quote_chars (s : string) : string :=
  match s with
  | EmptyString => EmptyString
  | String c s' => quote_char c +:+ quote_chars s'
  end.

Definition quote (s : string) : string :=
  String dquote (quote_chars s +:+ String dquote "").

Definition is_defined (v : Value) : bool :=
  match v with JUndefined => false | _ => true end.

(** The text of a value inside a text: [undefined] is [null] in an array
    and its property is left out of an object. *)
Fixpoint serialize (v : Value) : string :=
  match v with
  | JUndefined => "null"
  | JNull => "null"
  | JBool true => "true"
  | JBool false => "false"
  | JNumber text => text
  | JString s => quote s
  | JArray items => "[" +:+ String.concat "," (map serialize items) +:+ "]"
  | JObject props =>
      "{" +:+ String.concat ","
                ((fix members (ps : list (string * Value)) : list string :=
                    match ps with
                    | [] => []
                    | (k, v) :: rest =>
                        if is_defined v
                        then (quote k +:+ ":" +:+ serialize v) :: members rest
                        else members rest
                    end) props)
          +:+ "}"
  end.

(** [JSON.stringify(v)]: [undefined] for [undefined]. *)
Definition stringify (v : Value) : option string :=
  match v with
  | JUndefined => None
  | _ => Some (serialize v)
  end.

(** The members of an object of strings, as [serialize] writes them. *)
Definition member_text (kv : string * string) : string :=
  quote kv.1 +:+ ":" +:+ quote kv.2.

Definition strings (ps : list (string * string)) : list (string * Value) :=
  (λ kv, (kv.1, JString kv.2)) <$> ps.

(** *** Reading a property *)

(** The last binding of a key, as an object made from a text with a
    repeated key has it. *)
Fixpoint lookup (k : string) (props : list (string * Value)) : option Value :=
  match props with
  | [] => None
  | (k', v) :: rest =>
      match lookup k rest with
      | Some v' => Some v'
      | None => if String.eqb k k' then Some v else None
      end
  end.

(** [v.message]: a type error on [null] and [undefined], the property of an
    object, [undefined] where there is none (also on arrays, strings,
    numbers and booleans, whose prototypes have no [message]). *)
Definition message (v : Value) : option Value :=
  match v with
  | JUndefined | JNull => None
  | JObject props => Some (default JUndefined (lookup "message" props))
  | _ => Some JUndefined
  end.

(** *** A reader of JSON texts

    [parse] reads the JSON grammar: white space, [null], [true], [false],
    numbers, strings with their escapes, arrays and objects.  It is used to
    run the handlers on concrete response bodies; the theorems about the
    handlers hold for any reader.  A [\uXXXX] escape of a surrogate is not
    read (the text is refused). *)

Definition is_ws (c : ascii) : bool :=
  let n := nat_of_ascii c in
  Nat.eqb n 32 || Nat.eqb n 9 || Nat.eqb n 10 || Nat.eqb n 13.

Fixpoint skip_ws (s : string) : string :=
  match s with
  | String c s' => if is_ws c then skip_ws s' else s
  | EmptyString => EmptyString
  end.

Definition is_digit (c : ascii) : bool :=
  let n := nat_of_ascii c in Nat.leb 48 n && Nat.leb n 57.

Definition hex_value (c : ascii) : option N :=
  let n := N_of_ascii c in
  if N.leb 48 n && N.leb n 57 then Some (n - 48)%N
  else if N.leb 97 n && N.leb n 102 then Some (n - 87)%N
  else if N.leb 65 n && N.leb n 70 then Some (n - 55)%N
  else None.

(** The UTF-8 bytes of a code unit outside the surrogates. *)
Definition utf8 (u : N) : option string :=
  if N.ltb u 128 then Some (String (ascii_of_N u) "")
  else if N.ltb u 2048
       then Some (String (ascii_of_N (192 + u / 64))
                    (String (ascii_of_N (128 + u mod 64)) ""))
  else if N.leb 55296 u && N.leb u 57343 then None
  else Some (String (ascii_of_N (224 + u / 4096))
               (String (ascii_of_N (128 + (u / 64) mod 64))
                  (String (ascii_of_N (128 + u mod 64)) ""))).

Definition unescape (c : ascii) : option ascii :=
  if Ascii.eqb c dquote then Some dquote
  else if Ascii.eqb c backslash then Some backslash
  else if Ascii.eqb c "/" then Some "/"%char
  else if Ascii.eqb c "b" then Some (ascii_of_nat 8)
  else if Ascii.eqb c "f" then Some (ascii_of_nat 12)
  else if Ascii.eqb c "n" then Some (ascii_of_nat 10)
  else if Ascii.eqb c "r" then Some (ascii_of_nat 13)
  else if Ascii.eqb c "t" then Some (ascii_of_nat 9)
  else None.

(** The characters of a string after its opening quote, and what follows
    the closing one. *)
Fixpoint parse_chars (s : string) : option (string * string) :=
  match s with
  | EmptyString => None
  | String c s' =>
      if Ascii.eqb c dquote then Some (EmptyString, s')
      else if Ascii.eqb c backslash then
        match s' with
        | String "u" (String h1 (String h2 (String h3 (String h4 s'')))) =>
            match hex_value h1, hex_value h2, hex_value h3, hex_value h4 with
            | Some a, Some b, Some c, Some d =>
                match utf8 (a * 4096 + b * 256 + c * 16 + d)%N, parse_chars s'' with
                | Some bytes, Some (cs, rest) => Some (bytes +:+ cs, rest)
                | _, _ => None
                end
            | _, _, _, _ => None
            end
        | String e s'' =>
            match unescape e, parse_chars s'' with
            | Some c', Some (cs, rest) => Some (String c' cs, rest)
            | _, _ => None
            end
        | EmptyString => None
        end
      else if Nat.ltb (nat_of_ascii c) 32 then None
      else match parse_chars s' with
           | Some (cs, rest) => Some (String c cs, rest)
           | None => None
           end
  end.

Fixpoint span_digits (s : string) : string * string :=
  match s with
  | String c s' =>
      if is_digit c then let '(ds, rest) := span_digits s' in (String c ds, rest)
      else (EmptyString, s)
  | EmptyString => (EmptyString, EmptyString)
  end.

(** A number: an optional minus sign, an integer part without a leading
    zero, an optional fraction, an optional exponent. *)
Definition parse_number (s : string) : option (string * string) :=
  let '(sign, s1) :=
    match s with String "-" r => ("-", r) | _ => ("", s) end in
  let '(int, s2) := span_digits s1 in
  match int with
  | EmptyString => None
  | String "0" (String _ _) => None
  | _ =>
      let frac :=
        match s2 with
        | String "." r =>
            let '(ds, r') := span_digits r in
            match ds with EmptyString => None | _ => Some ("." +:+ ds, r') end
        | _ => Some ("", s2)
        end in
      match frac with
      | None => None
      | Some (f, s3) =>
          match s3 with
          | String e r =>
              if Ascii.eqb e "e" || Ascii.eqb e "E" then
                let '(esign, r1) :=
                  match r with
                  | String "+" r' => ("+", r')
                  | String "-" r' => ("-", r')
                  | _ => ("", r)
                  end in
                let '(ds, r2) := span_digits r1 in
                match ds with
                | EmptyString => None
                | _ => Some (sign +:+ int +:+ f +:+ String e esign +:+ ds, r2)
                end
              else Some (sign +:+ int +:+ f, s3)
          | EmptyString => Some (sign +:+ int +:+ f, s3)
          end
      end
  end.

(** A value at the head of [s] (after white space) and what follows it;
    [parse_items] and [parse_members] read what follows [[] and [{] when it
    is not the closing bracket. *)
Fixpoint parse_value (fuel : nat) (s : string) : option (Value * string) :=
  match fuel with
  | 0 => None
  | S fuel' =>
      match skip_ws s with
      | EmptyString => None
      | String c rest as s0 =>
          if Ascii.eqb c dquote then
            match parse_chars rest with
            | Some (cs, r) => Some (JString cs, r)
            | None => None
            end
          else if Ascii.eqb c "[" then
            match skip_ws rest with
            | String "]" r => Some (JArray [], r)
            | _ =>
                match parse_items fuel' rest with
                | Some (vs, r) => Some (JArray vs, r)
                | None => None
                end
            end
          else if Ascii.eqb c "{" then
            match skip_ws rest with
            | String "}" r => Some (JObject [], r)
            | _ =>
                match parse_members fuel' rest with
                | Some (ps, r) => Some (JObject ps, r)
                | None => None
                end
            end
          else
            match JS.strip_prefix "null" s0, JS.strip_prefix "true" s0,
                  JS.strip_prefix "false" s0 with
            | Some r, _, _ => Some (JNull, r)
            | _, Some r, _ => Some (JBool true, r)
            | _, _, Some r => Some (JBool false, r)
            | _, _, _ =>
                match parse_number s0 with
                | Some (text, r) => Some (JNumber text, r)
                | None => None
                end
            end
      end
  end
with parse_items (fuel : nat) (s : string) : option (list Value * string) :=
  match fuel with
  | 0 => None
  | S fuel' =>
      match parse_value fuel' s with
      | Some (v, r) =>
          match skip_ws r with
          | String "," r' =>
              match parse_items fuel' r' with
              | Some (vs, r'') => Some (v :: vs, r'')
              | None => None
              end
          | String "]" r' => Some ([v], r')
          | _ => None
          end
      | None => None
      end
  end
with parse_members (fuel : nat) (s : string)
    : option (list (string * Value) * string) :=
  match fuel with
  | 0 => None
  | S fuel' =>
      match skip_ws s with
      | String c r0 =>
          if Ascii.eqb c dquote then
            match parse_chars r0 with
            | Some (k, r1) =>
                match skip_ws r1 with
                | String ":" r2 =>
                    match parse_value fuel' r2 with
                    | Some (v, r3) =>
                        match skip_ws r3 with
                        | String "," r4 =>
                            match parse_members fuel' r4 with
                            | Some (ps, r5) => Some ((k, v) :: ps, r5)
                            | None => None
                            end
                        | String "}" r4 => Some ([(k, v)], r4)
                        | _ => None
                        end
                    | None => None
                    end
                | _ => None
                end
            | None => None
            end
          else None
      | EmptyString => None
      end
  end.

(** [parse s]: the value of the text, [None] when it is not one. *)
Definition parse (s : string) : option Value :=
  match parse_value (2 * String.length s + 2) s with
  | Some (v, rest) =>
      match skip_ws rest with
      | EmptyString => Some v
      | _ => None
      end
  | None => None
  end.

End Json.

(** ** The confirmation form controller *)

(** The settings object of [$.ajax]. *)
Module Ajax.

Record Settings := {
  url : string;
  type : string;
  contentType : string;
  dataType : string;
  data : option string;
}.

End Ajax.

Module Confirmation.

Import Json.

(** *** The page *)

(** The values of [#badge], [#phone], [#shirt], [#diet], [#waiver] and
    [#photoRelease], which [.val()] reads as strings. *)
Record Fields := {
  badge : string;
  phone : string;
  shirt : string;
  diet : string;
  waiver : string;
  photoRelease : string;
}.

(** The one function the script gives to a timer:
    [function(){ location.href="/dashboard" }]. *)
Inductive Callback := GoToDashboard.

(** The page: the fields, the classes of [$form] and the entries of its
    error block, whether the overlay of [.ui.dimmable] is shown, the
    message of [dimmerMessage], the timers set and the time in ms, the
    address, and the requests sent so far. *)
Record Page := {
  fields : Fields;
  form_classes : list string;
  form_errors : list Value;
  dimmer : bool;
  dimmer_message : option (string * string);
  timers : list (nat * Callback);
  now : nat;
  location : string;
  requests : list Ajax.Settings;
}.

Definition set_form_classes (cs : list string) (p : Page) : Page :=
  {| fields := fields p; form_classes := cs; form_errors := form_errors p;
     dimmer := dimmer p; dimmer_message := dimmer_message p;
     timers := timers p; now := now p; location := location p;
     requests := requests p |}.

Definition set_form_errors (es : list Value) (p : Page) : Page :=
  {| fields := fields p; form_classes := form_classes p; form_errors := es;
     dimmer := dimmer p; dimmer_message := dimmer_message p;
     timers := timers p; now := now p; location := location p;
     requests := requests p |}.

Definition set_dimmer (b : bool) (p : Page) : Page :=
  {| fields := fields p; form_classes := form_classes p;
     form_errors := form_errors p;
     dimmer := b; dimmer_message := dimmer_message p;
     timers := timers p; now := now p; location := location p;
     requests := requests p |}.

Definition set_dimmer_message (m : option (string * string)) (p : Page) : Page :=
  {| fields := fields p; form_classes := form_classes p;
     form_errors := form_errors p;
     dimmer := dimmer p; dimmer_message := m;
     timers := timers p; now := now p; location := location p;
     requests := requests p |}.

Definition set_timers (ts : list (nat * Callback)) (p : Page) : Page :=
  {| fields := fields p; form_classes := form_classes p;
     form_errors := form_errors p;
     dimmer := dimmer p; dimmer_message := dimmer_message p;
     timers := ts; now := now p; location := location p;
     requests := requests p |}.

Definition set_now (t : nat) (p : Page) : Page :=
  {| fields := fields p; form_classes := form_classes p;
     form_errors := form_errors p;
     dimmer := dimmer p; dimmer_message := dimmer_message p;
     timers := timers p; now := t; location := location p;
     requests := requests p |}.

Definition set_location (href : string) (p : Page) : Page :=
  {| fields := fields p; form_classes := form_classes p;
     form_errors := form_errors p;
     dimmer := dimmer p; dimmer_message := dimmer_message p;
     timers := timers p; now := now p; location := href;
     requests := requests p |}.

Definition set_requests (rs : list Ajax.Settings) (p : Page) : Page :=
  {| fields := fields p; form_classes := form_classes p;
     form_errors := form_errors p;
     dimmer := dimmer p; dimmer_message := dimmer_message p;
     timers := timers p; now := now p; location := location p;
     requests := rs |}.

(** *** Handlers: the page threaded through, an exception ends the handler *)

Inductive Exn := SyntaxError | TypeError.

Inductive Outcome (A : Type) :=
| Returned (a : A)
| Thrown (e : Exn).

Arguments Returned {A} a.
Arguments Thrown {A} e.

Definition M (A : Type) : Type := Page → Outcome A * Page.

#[global] Instance M_ret : MRet M := λ A a p, (Returned a, p).

#[global] Instance M_bind : MBind M := λ A B f m p,
  match m p with
  | (Returned a, p') => f a p'
  | (Thrown e, p') => (Thrown e, p')
  end.

Definition get : M Page := λ p, (Returned p, p).
Definition modify (f : Page → Page) : M unit := λ p, (Returned (), f p).
Definition throw {A} (e : Exn) : M A := λ p, (Thrown e, p).

(** *** The libraries the script calls *)

(** [.dimmer('show')] and [.dimmer('hide')] on [.ui.dimmable]. *)
Definition dimmer_show : M unit := modify (set_dimmer true).
Definition dimmer_hide : M unit := modify (set_dimmer false).

(** [$.ajax(settings)]: the request is sent; its answer comes later, as a
    call of [success] or of [error]. *)
Definition ajax (settings : Ajax.Settings) : M unit :=
  modify (λ p, set_requests (requests p ++ [settings]) p).

(** [$form.removeClass(c)], [$form.addClass(c)]. *)
Definition removeClass (c : string) : M unit :=
  modify (λ p, set_form_classes (JS.removeClass c (form_classes p)) p).
Definition addClass (c : string) : M unit :=
  modify (λ p, set_form_classes (JS.addClass c (form_classes p)) p).

(** Modelled from the spec: [$form.form('add errors', errors)] belongs to
    the form plugin, which is not among the sources.  The error block of
    the form shows the given entries (a request error is "surfaced as a
    single top-level message"). *)
Definition form_add_errors (errors : list Value) : M unit :=
  modify (set_form_errors errors).

(** Modelled from the spec: [dimmerMessage(title, subtitle, callback, delay)]
    is not among the sources.  It shows "a timed confirmation message" and
    runs the callback when [delay] ms have gone by. *)
Definition dimmerMessage (title subtitle : string) (callback : Callback)
    (delay : nat) : M unit :=
  modify (λ p, set_timers (timers p ++ [(now p + delay, callback)])
                 (set_dimmer_message (Some (title, subtitle)) p)).

(** *** Validation rules, as given to [$form.form] *)

Record Rule := {
  type : string;
  prompt : string;
}.

Record Field := {
  identifier : string;
  rules : list Rule;
}.

Definition validation : list (string * Field) :=
  [ ("name",
     {| identifier := "badge";
        rules := [ {| type := "empty";
                      prompt := "Please enter the name you wanted printed on your badge!" |} ] |});
    ("diet",
     {| identifier := "diet";
        rules := [ {| type := "empty";
                      prompt := "Please enter a dietary restriction!" |} ] |});
    ("waiver",
     {| identifier := "waiver";
        rules := [ {| type := "empty";
                      prompt := "Please enter your full legal name." |} ] |});
    ("photoRelease",
     {| identifier := "photoRelease";
        rules := [ {| type := "empty";
                      prompt := "Please enter your full legal name." |} ] |}) ].

(** *** The script *)

Definition submitConfirmation : M unit :=
  p ← get;
  let formData :=
    stringify (JObject [ ("badge", JString (badge (fields p)));
                         ("phone", JString (phone (fields p)));
                         ("shirt", JString (shirt (fields p)));
                         ("diet", JString (diet (fields p)));
                         ("waiver", JString (waiver (fields p)));
                         ("photoRelease", JString (photoRelease (fields p))) ]) in
  dimmer_show ;;
  ajax {| Ajax.url := "/admits";
          Ajax.type := "PUT";
          Ajax.contentType := "application/json";
          Ajax.dataType := "json";
          Ajax.data := formData |}.

Definition validate : M unit := submitConfirmation.

Definition showError (error : Value) : M unit :=
  removeClass "success" ;;
  addClass "error" ;;
  form_add_errors [error].

(** The [success] callback of the request. *)
Definition success (data : Value) : M unit :=
  dimmer_hide ;;
  dimmerMessage "Your confirmation has been saved!" "And now we wait..."
                GoToDashboard 1500.

Section Error.

(** [JSON.parse] of the browser: [None] when it throws a [SyntaxError]. *)
Variable JSON_parse : string → option Value.

(** The [error] callback of the request, [responseText] being
    [error.responseText]. *)
Definition error (responseText : string) : M unit :=
  dimmer_hide ;;
  parsed ← match JSON_parse responseText with
           | Some v => mret v
           | None => throw SyntaxError
           end;
  msg ← match message parsed with
        | Some m => mret m
        | None => throw TypeError
        end;
  showError msg.

End Error.

(** *** The form plugin *)

(** Modelled from the spec: the validation of [$form.form(rules, settings)]
    is done by the form plugin, which is not among the sources.  The spec
    has "non-empty checks on four named fields": the rule [empty] holds of
    a value that is not the empty string. *)
Definition rule_holds (r : Rule) (value : string) : bool :=
  if String.eqb (type r) "empty" then negb (String.eqb value "") else true.

(** The field of the page a rule set names. *)
Definition field_value (f : Fields) (identifier : string) : option string :=
  if String.eqb identifier "badge" then Some (badge f)
  else if String.eqb identifier "phone" then Some (phone f)
  else if String.eqb identifier "shirt" then Some (shirt f)
  else if String.eqb identifier "diet" then Some (diet f)
  else if String.eqb identifier "waiver" then Some (waiver f)
  else if String.eqb identifier "photoRelease" then Some (photoRelease f)
  else None.

(** The prompts of the rules of a field that do not hold, and those of the
    whole form, in the order of the rules. *)
Definition field_prompts (f : Fields) (field : Field) : list string :=
  match field_value f (identifier field) with
  | Some v => prompt <$> List.filter (λ r, negb (rule_holds r v)) (rules field)
  | None => []
  end.

Definition form_prompts (f : Fields) : list string :=
  flat_map (λ entry, field_prompts f (snd entry)) validation.

(** Modelled from the spec: on a submission the plugin checks the rules;
    "validation failure keeps the user on the form with inline prompts; no
    request is sent", and the form is then in its error state; a form that
    passes has [onSuccess] called, which the script sets to [validate]. *)
Definition submit : M unit :=
  p ← get;
  match form_prompts (fields p) with
  | [] => validate
  | prompts => addClass "error" ;; form_add_errors (JString <$> prompts)
  end.

(** *** Timers *)

Definition run_callback (p : Page) (callback : Callback) : Page :=
  match callback with
  | GoToDashboard => set_location "/dashboard" p
  end.

(** [elapse ms p]: the page after [ms] more milliseconds, the timers that
    came due having run (in the order they were set, which is the order
    they come due in, all delays being the same). *)
Definition elapse (ms : nat) (p : Page) : Page :=
  let t := now p + ms in
  let due := List.filter (λ timer, Nat.leb (fst timer) t) (timers p) in
  let later := List.filter (λ timer, negb (Nat.leb (fst timer) t)) (timers p) in
  foldl run_callback (set_timers later (set_now t p)) (snd <$> due).

(** *** Notions used to state the properties *)

Definition sample_page : Page :=
  {| fields := {| badge := "Ada"; phone := ""; shirt := "";
                  diet := "none"; waiver := "Ada Lovelace";
                  photoRelease := "Ada Lovelace" |};
     form_classes := ["ui"; "form"];
     form_errors := [];
     dimmer := false;
     dimmer_message := None;
     timers := [];
     now := 0;
     location := "/confirm";
     requests := [] |}.

(** The request the script makes, for a body. *)
Definition put_admits (body : option string) : Ajax.Settings :=
  {| Ajax.url := "/admits";
     Ajax.type := "PUT";
     Ajax.contentType := "application/json";
     Ajax.dataType := "json";
     Ajax.data := body |}.

(** The object the script serializes. *)
Definition confirmation (f : Fields) : list (string * Value) :=
  [ ("badge", JString (badge f));
    ("phone", JString (phone f));
    ("shirt", JString (shirt f));
    ("diet", JString (diet f));
    ("waiver", JString (waiver f));
    ("photoRelease", JString (photoRelease f)) ].

(** The text of that object. *)
Definition confirmation_text (f : Fields) : string :=
  q "{'badge':" +:+ quote (badge f)
  +:+ q ",'phone':" +:+ quote (phone f)
  +:+ q ",'shirt':" +:+ quote (shirt f)
  +:+ q ",'diet':" +:+ quote (diet f)
  +:+ q ",'waiver':" +:+ quote (waiver f)
  +:+ q ",'photoRelease':" +:+ quote (photoRelease f)
  +:+ "}".

Definition all_required (f : Fields) : Prop :=
  badge f ≠ "" ∧ diet f ≠ "" ∧ waiver f ≠ "" ∧ photoRelease f ≠ "".

(** *** The answer to the request *)

(** [$.ajax] calls [success] with the data of the answer, or [error] with
    the request, whose [responseText] is the body. *)
Inductive Response :=
| Succeeded (data : Value)
| Failed (responseText : string).

Definition respond (JSON_parse : string → option Value) (r : Response) : M unit :=
  match r with
  | Succeeded data => success data
  | Failed responseText => error JSON_parse responseText
  end.

End Confirmation.

(** * Properties *)

Module JSFacts.

(** *** Facts about the primitives *)

Lemma indexOf_zero_prefix (s pat : string) :
  JS.indexOf s pat = 0%Z ↔ String.prefix pat s = true.
Proof.
  unfold JS.indexOf. split.
  - destruct (String.index 0 pat s) as [n|] eqn:E; [|discriminate].
    intros H. assert (n = 0) by lia. subst n.
    apply String.prefix_correct.
    exact (String.index_correct1 _ _ _ _ E).
  - intros H. destruct s as [|b s'].
    + destruct pat; [reflexivity | discriminate].
    + simpl String.index. simpl in H. rewrite H. reflexivity.
Qed.

Lemma append_nil (s : string) : "" +:+ s = s.
Proof. reflexivity. Qed.

Lemma append_cons (c : ascii) (s1 s2 : string) :
  String c s1 +:+ s2 = String c (s1 +:+ s2).
Proof. reflexivity. Qed.

Lemma append_assoc (s1 s2 s3 : string) :
  (s1 +:+ s2) +:+ s3 = s1 +:+ (s2 +:+ s3).
Proof.
  induction s1 as [|c s1 IH]; [reflexivity|].
  rewrite !append_cons. now rewrite IH.
Qed.

(** Appends are put in right-nested form, constants pushed through. *)
Ltac norm_append :=
  repeat (rewrite append_assoc || rewrite append_cons || rewrite append_nil).

Lemma grep_from_filter {A} (f : A → bool) (invert : bool) (elems : list A) (i : nat) :
  JS.grep_from i elems (λ e _, f e) invert
  = List.filter (λ e, xorb (f e) invert) elems.
Proof.
  revert i. induction elems as [|e rest IH]; intros i; simpl; [reflexivity|].
  rewrite IH. destruct (f e), invert; reflexivity.
Qed.

Lemma grep_filter {A} (f : A → bool) (invert : bool) (elems : list A) :
  JS.grep elems (λ e _, f e) invert = List.filter (λ e, xorb (f e) invert) elems.
Proof. apply grep_from_filter. Qed.

Lemma hasClass_addClass (c : string) (classes : list string) :
  JS.hasClass c (JS.addClass c classes) = true.
Proof.
  unfold JS.hasClass, JS.addClass.
  destruct (existsb (String.eqb c) classes) eqn:E; [exact E|].
  rewrite existsb_app. simpl. rewrite String.eqb_refl.
  now rewrite orb_true_r.
Qed.

Lemma hasClass_removeClass (c : string) (classes : list string) :
  JS.hasClass c (JS.removeClass c classes) = false.
Proof.
  unfold JS.hasClass, JS.removeClass.
  induction classes as [|x l IH]; simpl; [reflexivity|].
  destruct (String.eqb c x) eqn:E; simpl; [exact IH|].
  now rewrite E.
Qed.

Lemma hasClass_addClass_ne (c d : string) (classes : list string) :
  c ≠ d → JS.hasClass c (JS.addClass d classes) = JS.hasClass c classes.
Proof.
  unfold JS.hasClass, JS.addClass. intros H.
  destruct (existsb (String.eqb d) classes); [reflexivity|].
  rewrite existsb_app. simpl. apply String.eqb_neq in H. rewrite H.
  now rewrite !orb_false_r.
Qed.

End JSFacts.

Import JSFacts.

(** ** The upload controller *)

Module UploadFacts.

Import Upload.

(** *** The sanitized form data *)

Lemma filter_filter_andb {A} (f g : A → bool) (l : list A) :
  List.filter f (List.filter g l) = List.filter (λ x, g x && f x) l.
Proof.
  induction l as [|x l IH]; simpl; [reflexivity|].
  destruct (g x); simpl; [destruct (f x)|]; now rewrite IH.
Qed.

Lemma elem_of_find (selector : Input → bool) (dom : list Input) (r : nat) :
  r ∈ find selector dom ↔ ∃ e, dom !! r = Some e ∧ selector e = true.
Proof.
  unfold find. rewrite list_elem_of_In, filter_In, in_seq. split.
  - intros [_ H]. destruct (dom !! r) as [e|]; [eauto | discriminate].
  - intros (e & He & Hs). rewrite He. split; [|exact Hs].
    apply lookup_lt_Some in He. lia.
Qed.

Lemma getSanitizedData_find (form : list Input) :
  getSanitizedData form
  = find (λ e, negb (String.prefix "x-amz-meta-" (name e))
               && negb (String.eqb (name e) "file")) form.
Proof.
  unfold getSanitizedData. rewrite !grep_filter.
  unfold find. rewrite !filter_filter_andb.
  apply filter_ext. intros i. unfold element_name.
  destruct (form !! i) as [e|]; [|reflexivity]. simpl.
  rewrite !xorb_true_r. f_equal.
  destruct (String.prefix "x-amz-meta-" (name e)) eqn:P.
  - apply indexOf_zero_prefix in P. rewrite P. reflexivity.
  - destruct (JS.indexOf (name e) "x-amz-meta-" =? 0)%Z eqn:Z; [|reflexivity].
    apply Z.eqb_eq, indexOf_zero_prefix in Z. congruence.
Qed.

Lemma elem_of_getSanitizedData (form : list Input) (r : nat) :
  r ∈ getSanitizedData form ↔
  ∃ e, form !! r = Some e
       ∧ String.prefix "x-amz-meta-" (name e) = false
       ∧ name e ≠ "file".
Proof.
  rewrite getSanitizedData_find, elem_of_find.
  split; intros (e & He & H); exists e; (split; [exact He|]).
  - apply andb_true_iff in H as [H1 H2].
    apply negb_true_iff in H1, H2. split; [exact H1|].
    now apply String.eqb_neq.
  - destruct H as [H1 H2]. apply String.eqb_neq in H2.
    now rewrite H1, H2.
Qed.

(** C1, as the code has it: the sanitized form data is made of exactly the
    inputs of the form whose name does NOT start with [x-amz-meta-] and is
    not [file], in document order.  The [x-amz-meta-] inputs (bucket URL,
    policy endpoint) are the ones left out. *)
Theorem getSanitizedData_excludes_meta (form : list Input) :
  getSanitizedData form
  = find (λ e, negb (String.prefix "x-amz-meta-" (name e))
               && negb (String.eqb (name e) "file")) form
  ∧ ∀ r, r ∈ getSanitizedData form ↔
         ∃ e, form !! r = Some e
              ∧ String.prefix "x-amz-meta-" (name e) = false
              ∧ name e ≠ "file".
Proof.
  split; [apply getSanitizedData_find | apply elem_of_getSanitizedData].
Qed.

(** C1, as stated, fails: on a form with a bucket-URL input, an [acl] input
    and the file input, the data sent is the [acl] input alone, while the
    metadata set of the interface description is the bucket-URL input. *)
Lemma getSanitizedData_not_meta_prefixed :
  let form := [ {| name := "x-amz-meta-bucket_url"; type := "hidden"; value := "https://bucket" |};
                {| name := "acl"; type := "hidden"; value := "private" |};
                {| name := "file"; type := "file"; value := "" |} ] in
  getSanitizedData form = [1]
  ∧ meta_prefixed_fields form = [0]
  ∧ ¬ (∀ r, r ∈ getSanitizedData form ↔
            ∃ e, form !! r = Some e
                 ∧ String.prefix "x-amz-meta-" (name e) = true
                 ∧ name e ≠ "file").
Proof.
  cbv zeta. split; [reflexivity|]. split; [reflexivity|].
  intros H. specialize (H 0). destruct H as [_ H].
  assert (E : 0 ∈ getSanitizedData
                [ {| name := "x-amz-meta-bucket_url"; type := "hidden"; value := "https://bucket" |};
                  {| name := "acl"; type := "hidden"; value := "private" |};
                  {| name := "file"; type := "file"; value := "" |} ]).
  { apply H. eexists. split; [reflexivity|]. split; [reflexivity|discriminate]. }
  change (0 ∈ [1]) in E. apply list_elem_of_In in E. simpl in E. lia.
Qed.

(** *** Runs *)

Lemma run_app (st : State) (evs1 evs2 : list Event) :
  run st (evs1 ++ evs2)
  = ((run (run st evs1).1 evs2).1, (run st evs1).2 ++ (run (run st evs1).1 evs2).2).
Proof.
  revert st. induction evs1 as [|ev evs1 IH]; intros st; simpl.
  - now destruct (run st evs2).
  - destruct (step st ev) as [st1 acts]. rewrite IH.
    destruct (run st1 evs1) as [st2 tr]. simpl.
    now rewrite <- app_assoc.
Qed.

Lemma run_cons (st : State) (ev : Event) (evs : list Event) :
  run st (ev :: evs)
  = ((run (step st ev).1 evs).1,
     In_ ev :: (Out <$> (step st ev).2) ++ (run (step st ev).1 evs).2).
Proof.
  simpl. destruct (step st ev) as [st1 acts]. simpl.
  now destruct (run st1 evs).
Qed.

(** A property of the state and of the record so far that every event
    preserves holds along every run. *)
Lemma run_invariant (P : State → list Entry → Prop) :
  (∀ st tr ev, P st tr →
     P (step st ev).1 (tr ++ In_ ev :: (Out <$> (step st ev).2))) →
  ∀ evs st tr, P st tr → P (run st evs).1 (tr ++ (run st evs).2).
Proof.
  intros Hstep. induction evs as [|ev evs IH]; intros st tr HP.
  - simpl. now rewrite app_nil_r.
  - rewrite run_cons. simpl.
    specialize (IH _ _ (Hstep st tr ev HP)).
    rewrite <- app_assoc in IH. exact IH.
Qed.

(** An action of a run was made on one of its events. *)
Lemma run_out_inv (evs : list Event) (st : State) (before after : list Entry) (a : Action) :
  (run st evs).2 = before ++ Out a :: after →
  ∃ evs1 ev evs2 acts1 acts2,
    evs = evs1 ++ ev :: evs2
    ∧ (step (run st evs1).1 ev).2 = acts1 ++ a :: acts2
    ∧ before = (run st evs1).2 ++ In_ ev :: (Out <$> acts1)
    ∧ after = (Out <$> acts2) ++ (run (step (run st evs1).1 ev).1 evs2).2.
Proof.
  revert st before. induction evs as [|ev evs IH]; intros st before H.
  - simpl in H. now destruct before.
  - rewrite run_cons in H. simpl in H.
    destruct before as [|x before]; [discriminate|].
    injection H as <- H.
    remember (step st ev).2 as acts eqn:Hacts.
    assert (Hsplit :
      (∃ acts1 acts2, acts = acts1 ++ a :: acts2 ∧ before = Out <$> acts1
         ∧ after = (Out <$> acts2) ++ (run (step st ev).1 evs).2)
      ∨ (∃ before', before = (Out <$> acts) ++ before'
           ∧ (run (step st ev).1 evs).2 = before' ++ Out a :: after)).
    { clear Hacts IH. revert before H.
      induction acts as [|a0 acts IHa]; intros before H.
      - right. exists before. now split.
      - destruct before as [|y before].
        + simpl in H. injection H as H1 H2. left.
          exists [], acts. subst. now split.
        + simpl in H. injection H as H1 H2. subst y.
          destruct (IHa _ H2) as [(acts1 & acts2 & E1 & E2 & E3) | (before' & E1 & E2)].
          * left. exists (a0 :: acts1), acts2. subst. now split.
          * right. exists before'. subst. now split. }
    destruct Hsplit as [(acts1 & acts2 & E1 & E2 & E3) | (before' & E1 & E2)].
    + exists [], ev, evs, acts1, acts2. simpl.
      split; [reflexivity|]. split; [congruence|].
      split; [now subst before | exact E3].
    + destruct (IH _ _ E2) as (evs1 & ev' & evs2 & acts1 & acts2 & F1 & F2 & F3 & F4).
      exists (ev :: evs1), ev', evs2, acts1, acts2.
      rewrite !run_cons. simpl. subst. split; [reflexivity|].
      split; [exact F2|]. split; [|reflexivity].
      now rewrite <- app_assoc.
Qed.

(** *** Writing the policy into the form *)

Lemma existsb_eqb_elem_of (i : nat) (l : list nat) :
  existsb (Nat.eqb i) l = true ↔ i ∈ l.
Proof.
  rewrite existsb_exists, list_elem_of_In. split.
  - intros (x & Hx & E). apply Nat.eqb_eq in E. now subst.
  - intros H. exists i. split; [exact H | apply Nat.eqb_refl].
Qed.

Lemma set_val_find_name (n v : string) (dom : list Input) :
  set_val (find (input_name n) dom) v dom = write n v <$> dom.
Proof.
  apply list_eq. intros i. unfold set_val.
  rewrite list_lookup_imap, list_lookup_fmap.
  destruct (dom !! i) as [e|] eqn:E; [|reflexivity]. simpl. f_equal.
  unfold write.
  destruct (String.eqb (name e) n) eqn:N.
  - assert (H : i ∈ find (input_name n) dom)
      by (apply elem_of_find; eauto).
    apply existsb_eqb_elem_of in H. now rewrite H.
  - destruct (existsb (Nat.eqb i) (find (input_name n) dom)) eqn:X; [|reflexivity].
    apply existsb_eqb_elem_of, elem_of_find in X as (e' & E' & S').
    unfold input_name in S'. congruence.
Qed.

Lemma name_write (n v : string) (e : Input) : name (write n v e) = name e.
Proof. unfold write. now destruct (String.eqb (name e) n). Qed.

Lemma names_write (n v : string) (dom : list Input) :
  name <$> (write n v <$> dom) = name <$> dom.
Proof.
  rewrite <- list_fmap_compose. apply list_fmap_ext.
  intros i e _. apply name_write.
Qed.

Lemma value_write (n v : string) (e : Input) :
  value (write n v e) = if String.eqb (name e) n then v else value e.
Proof. unfold write. now destruct (String.eqb (name e) n). Qed.

Lemma find_name_same_names (m : string) (dom dom' : list Input) :
  name <$> dom' = name <$> dom →
  find (input_name m) dom' = find (input_name m) dom.
Proof.
  intros H. unfold find.
  assert (L : length dom' = length dom).
  { rewrite <- (length_fmap name dom'), H. apply length_fmap. }
  rewrite L. apply filter_ext. intros i.
  assert (E : name <$> dom' !! i = name <$> dom !! i)
    by (rewrite <- !list_lookup_fmap; now rewrite H).
  destruct (dom' !! i) as [e'|], (dom !! i) as [e|]; try discriminate; [|reflexivity].
  simpl in E. unfold input_name. congruence.
Qed.

Lemma val_find_write (m n v : string) (dom : list Input) :
  m ≠ n →
  val (find (input_name m) (write n v <$> dom)) (write n v <$> dom)
  = val (find (input_name m) dom) dom.
Proof.
  intros Hmn. rewrite (find_name_same_names m dom); [|apply names_write].
  destruct (find (input_name m) dom) as [|r sel] eqn:F; [reflexivity|].
  simpl. rewrite list_lookup_fmap.
  assert (Hr : r ∈ find (input_name m) dom) by (rewrite F; left).
  apply elem_of_find in Hr as (e & E & S). rewrite E. simpl. f_equal.
  rewrite value_write. unfold input_name in S.
  apply String.eqb_eq in S. subst m.
  apply String.eqb_neq in Hmn. now rewrite Hmn.
Qed.

Lemma policy_done_state (data : Data) (params : Params) (st : State) :
  (policy_done data params st).1
  = set_inputs (write "signature" (signature params)
                  <$> (write "policy" (policy params)
                  <$> (write "key" (key params) <$> inputs st))) st.
Proof.
  unfold policy_done. simpl. now rewrite !set_val_find_name.
Qed.

Lemma policy_done_inputs (data : Data) (params : Params) (st : State) :
  inputs (policy_done data params st).1
  = write "signature" (signature params)
      <$> (write "policy" (policy params)
      <$> (write "key" (key params) <$> inputs st)).
Proof. now rewrite policy_done_state. Qed.

Lemma policy_done_actions (data : Data) (params : Params) (st : State) :
  (policy_done data params st).2
  = [Post (url st) (form_fields (policy_done data params st).1) data].
Proof. reflexivity. Qed.

(** After the three writes, every input named [key], [policy] or
    [signature] holds the value of the answer. *)
Lemma policy_done_populates (data : Data) (params : Params) (st : State) (e : Input) :
  e ∈ inputs (policy_done data params st).1 →
  (name e = "key" → value e = key params)
  ∧ (name e = "policy" → value e = policy params)
  ∧ (name e = "signature" → value e = signature params).
Proof.
  rewrite policy_done_inputs.
  intros H.
  apply list_elem_of_fmap in H as (e2 & -> & H).
  apply list_elem_of_fmap in H as (e1 & -> & H).
  apply list_elem_of_fmap in H as (e0 & -> & H).
  rewrite !name_write, !value_write, !name_write.
  repeat split; intros N; rewrite N; reflexivity.
Qed.

Lemma elem_of_settle (id : nat) (st : State) (d : Data) :
  d ∈ pending (settle id st) ↔ d ∈ pending st ∧ data_id d ≠ id.
Proof.
  unfold settle. simpl. rewrite list_elem_of_In, filter_In, <- list_elem_of_In.
  unfold is_request. rewrite negb_true_iff, Nat.eqb_neq. reflexivity.
Qed.

Lemma reachable_step (ins : list Input) (st : State) (tr : list Entry) (ev : Event) :
  reachable_from ins st tr →
  reachable_from ins (step st ev).1 (tr ++ In_ ev :: (Out <$> (step st ev).2)).
Proof.
  intros (Hn & Hf & Hp & Hg).
  assert (Hmono : ∀ d extra, d ∈ pending st →
            Out (Get (policy_endpoint ins) (data_id d)) ∈ tr ++ extra).
  { intros d extra Hd. apply elem_of_app. left. now apply Hg. }
  destruct ev as [b | fs | id params | id | ]; cbn [step].
  - destruct (buttons st !! b); simpl; repeat split; auto.
  - simpl. repeat split; auto. intros d Hd.
    apply elem_of_app in Hd as [Hd | Hd]; [now apply Hmono|].
    apply list_elem_of_singleton in Hd. subst d. simpl.
    apply elem_of_app. right. right. rewrite <- Hp. left.
  - destruct (List.find (is_request id) (pending st)) as [data|] eqn:F.
    + rewrite policy_done_state. repeat split; simpl.
      * now rewrite !names_write.
      * exact Hf.
      * unfold policy_endpoint. rewrite !val_find_write by discriminate.
        exact Hp.
      * intros d Hd. apply Hmono.
        change (d ∈ pending (settle id st)) in Hd.
        now apply elem_of_settle in Hd.
    + simpl. repeat split; auto.
  - simpl. repeat split; auto. intros d Hd.
    apply Hmono. now apply (elem_of_settle id st d) in Hd.
  - simpl. repeat split; auto.
Qed.

Lemma reachable_run (ins : list Input) (bs : list Button) (evs : list Event) :
  reachable_from ins (run (init ins bs) evs).1 (run (init ins bs) evs).2.
Proof.
  apply (run_invariant (reachable_from ins) (reachable_step ins) evs (init ins bs) []).
  repeat split. intros d Hd. simpl in Hd. inversion Hd.
Qed.

(** *** The upload is sent only after the policy came in *)

Lemma form_fields_policy_field (ins : list Input) (st : State) (n : string) :
  name <$> inputs st = name <$> ins →
  formData st = getSanitizedData ins →
  n ∈ ["key"; "policy"; "signature"] →
  n ∈ name <$> ins →
  n ∈ (form_fields st).*1.
Proof.
  intros Hn Hf Hpol Hin.
  apply list_elem_of_fmap in Hin as (e & -> & He).
  apply list_elem_of_lookup in He as (r & Hr).
  assert (Hr' : name <$> inputs st !! r = Some (name e)).
  { rewrite <- list_lookup_fmap, Hn, list_lookup_fmap. now rewrite Hr. }
  destruct (inputs st !! r) as [e'|] eqn:E'; [|discriminate].
  injection Hr' as Hname.
  apply list_elem_of_fmap. exists (name e', value e'). split; [now simpl|].
  unfold form_fields. apply list_elem_of_omap. exists r. split.
  - rewrite Hf. apply elem_of_getSanitizedData. exists e.
    split; [exact Hr|].
    apply list_elem_of_In in Hpol. simpl in Hpol.
    destruct Hpol as [<- | [<- | [<- | []]]]; (split; [reflexivity | discriminate]).
  - now rewrite E'.
Qed.

Lemma form_fields_values (st : State) (params : Params) :
  (∀ e, e ∈ inputs st →
     (name e = "key" → value e = key params)
     ∧ (name e = "policy" → value e = policy params)
     ∧ (name e = "signature" → value e = signature params)) →
  ∀ n v, (n, v) ∈ form_fields st →
    (n = "key" → v = key params)
    ∧ (n = "policy" → v = policy params)
    ∧ (n = "signature" → v = signature params).
Proof.
  intros H n v Hin. unfold form_fields in Hin.
  apply list_elem_of_omap in Hin as (r & _ & Hr).
  destruct (inputs st !! r) as [e|] eqn:E; [|discriminate].
  injection Hr as <- <-. apply H. eapply list_elem_of_lookup_2, E.
Qed.

(** C2: in every run of an upload form, an upload request comes right
    after a successful answer of the policy endpoint for the same
    selection; the GET for it had been sent before, to the endpoint read
    from the input [x-amz-meta-policy_endpoint]; when the request is made
    the inputs [key], [policy] and [signature] of the form hold the values
    of the answer, and the request carries them. *)
Theorem upload_only_after_policy (ins : list Input) (bs : list Button)
    (evs : list Event) (before after : list Entry)
    (u : option string) (fields : list (string * string)) (d : Data) :
  (run (init ins bs) evs).2 = before ++ Out (Post u fields d) :: after →
  ∃ evs1 params evs2,
    evs = evs1 ++ PolicyDone (data_id d) params :: evs2
    ∧ before = (run (init ins bs) evs1).2 ++ [In_ (PolicyDone (data_id d) params)]
    ∧ Out (Get (policy_endpoint ins) (data_id d)) ∈ (run (init ins bs) evs1).2
    ∧ let st := (run (init ins bs) (evs1 ++ [PolicyDone (data_id d) params])).1 in
      (∀ e, e ∈ inputs st →
         (name e = "key" → value e = key params)
         ∧ (name e = "policy" → value e = policy params)
         ∧ (name e = "signature" → value e = signature params))
      ∧ fields = form_fields st
      ∧ (∀ v, ("key", v) ∈ fields → v = key params)
      ∧ (∀ v, ("policy", v) ∈ fields → v = policy params)
      ∧ (∀ v, ("signature", v) ∈ fields → v = signature params)
      ∧ (∀ n, n ∈ ["key"; "policy"; "signature"] → n ∈ name <$> ins → n ∈ fields.*1).
Proof.
  intros H.
  apply run_out_inv in H as (evs1 & ev & evs2 & acts1 & acts2 & E & Hs & Hb & Ha).
  pose proof (reachable_run ins bs evs1) as (_ & _ & _ & Hget).
  pose proof (reachable_run ins bs (evs1 ++ [ev])) as (Hn & Hf & _ & _).
  rewrite run_app in Hn, Hf. rewrite run_cons in Hn, Hf. simpl in Hn, Hf.
  set (st1 := (run (init ins bs) evs1).1) in *.
  destruct ev as [b | fs | id params | id | ]; cbn [step] in Hs.
  - exfalso.
    assert (Hin : In (Post u fields d) (acts1 ++ Post u fields d :: acts2))
      by (apply in_elt).
    rewrite <- Hs in Hin.
    destruct (buttons st1 !! b) as [button|]; [|exact Hin].
    simpl in Hin. apply in_flat_map in Hin as (h & _ & Hin).
    destruct h. simpl in Hin.
    apply list_elem_of_In, list_elem_of_fmap in Hin as (i & Hi & _).
    discriminate.
  - exfalso. simpl in Hs.
    destruct acts1 as [|a acts1]; [discriminate|].
    injection Hs as _ Hs. now destruct acts1.
  - cbn [step] in Hn, Hf.
    destruct (List.find (is_request id) (pending st1)) as [data|] eqn:F;
      [|now destruct acts1].
    rewrite policy_done_actions in Hs.
    destruct acts1 as [|a acts1];
      [|injection Hs as _ Hs; now destruct acts1].
    injection Hs as Hu Hfields Hd. subst data.
    pose proof (find_some _ _ F) as [Hpend Hid].
    apply Nat.eqb_eq in Hid. subst id.
    exists evs1, params, evs2.
    split; [exact E|]. split; [exact Hb|].
    split; [apply Hget; now apply list_elem_of_In|].
    rewrite run_app, run_cons. cbn [fst snd run step].
    fold st1. rewrite F.
    split; [intros e; apply policy_done_populates|].
    split; [now rewrite <- Hfields|].
    rewrite <- Hfields.
    pose proof (form_fields_values _ _
                  (policy_done_populates d params (settle (data_id d) st1)))
      as Hval.
    split; [intros v Hv; now apply (Hval _ _ Hv)|].
    split; [intros v Hv; now apply (Hval _ _ Hv)|].
    split; [intros v Hv; now apply (Hval _ _ Hv)|].
    intros n Hpol Hin. now apply (form_fields_policy_field ins).
  - exfalso. now destruct acts1.
  - exfalso. simpl in Hs.
    destruct acts1 as [|a acts1]; [discriminate|].
    injection Hs as _ Hs. now destruct acts1.
Qed.

(** *** What one event can do *)

Lemma elem_of_record_ext (tr : list Entry) (ev : Event) (acts : list Action) (a : Action) :
  Out a ∈ tr ++ In_ ev :: (Out <$> acts) ↔ Out a ∈ tr ∨ a ∈ acts.
Proof.
  rewrite elem_of_app, elem_of_cons, list_elem_of_fmap. split.
  - intros [H | [H | (a' & E & H)]]; [now left | discriminate | right; congruence].
  - intros [H | H]; [now left | right; right; now exists a].
Qed.

Lemma step_post_inv (st : State) (ev : Event) (u : option string)
    (fields : list (string * string)) (d : Data) :
  Post u fields d ∈ (step st ev).2 →
  ∃ params, ev = PolicyDone (data_id d) params ∧ d ∈ pending st.
Proof.
  destruct ev as [b | fs | id params | id | ]; cbn [step]; intros H.
  - destruct (buttons st !! b) as [button|]; simpl in H; [|inversion H].
    apply list_elem_of_In, in_flat_map in H as (h & _ & H). destruct h.
    apply list_elem_of_In, list_elem_of_fmap in H as (i & Hi & _). discriminate.
  - simpl in H. apply list_elem_of_singleton in H. discriminate.
  - destruct (List.find (is_request id) (pending st)) as [data|] eqn:F;
      [|simpl in H; inversion H].
    rewrite policy_done_actions in H. apply list_elem_of_singleton in H.
    injection H as _ _ ->.
    apply find_some in F as [Hin Hid]. apply Nat.eqb_eq in Hid. subst id.
    exists params. split; [reflexivity | now apply list_elem_of_In].
  - simpl in H. inversion H.
  - simpl in H. apply list_elem_of_singleton in H. discriminate.
Qed.

Lemma step_dialog_inv (st : State) (ev : Event) (i : nat) :
  FileDialog i ∈ (step st ev).2 →
  ∃ b button, ev = Click b ∧ buttons st !! b = Some button ∧ click button ≠ [].
Proof.
  destruct ev as [b | fs | id params | id | ]; cbn [step]; intros H.
  - destruct (buttons st !! b) as [button|] eqn:B; simpl in H; [|inversion H].
    exists b, button. repeat split; [exact B|].
    intros E. rewrite E in H. inversion H.
  - simpl in H. apply list_elem_of_singleton in H. discriminate.
  - destruct (List.find (is_request id) (pending st)) as [data|];
      [|simpl in H; inversion H].
    rewrite policy_done_actions in H. apply list_elem_of_singleton in H.
    discriminate.
  - simpl in H. inversion H.
  - simpl in H. apply list_elem_of_singleton in H. discriminate.
Qed.

Lemma step_pending (st : State) (ev : Event) (d : Data) :
  d ∈ pending (step st ev).1 →
  d ∈ pending st ∧ (∀ id params, ev = PolicyDone id params → data_id d ≠ id)
                 ∧ (∀ id, ev = PolicyFail id → data_id d ≠ id)
  ∨ ∃ fs, ev = Add fs ∧ d = {| data_id := next_id st; files := fs |}.
Proof.
  destruct ev as [b | fs | id params | id | ]; cbn [step].
  - destruct (buttons st !! b); simpl; intros H; left; now repeat split.
  - simpl. intros H. apply elem_of_app in H as [H | H].
    + left. now repeat split.
    + right. exists fs. apply list_elem_of_singleton in H. now split.
  - destruct (List.find (is_request id) (pending st)) as [data|] eqn:F.
    + rewrite policy_done_state. intros H.
      apply (elem_of_settle id st d) in H as [H1 H2].
      left. repeat split; [exact H1 | | discriminate].
      intros id' params' [= <- _]. exact H2.
    + simpl. intros H. left. repeat split; [exact H | | discriminate].
      intros id' params' [= <- _] E.
      apply list_elem_of_In in H. apply (find_none _ _ F) in H.
      unfold is_request in H. rewrite E, Nat.eqb_refl in H. discriminate.
  - intros H. apply (elem_of_settle id st d) in H as [H1 H2].
    left. repeat split; [exact H1 | discriminate |].
    intros id' [= <-]. exact H2.
  - simpl. intros H. left. now repeat split.
Qed.

Lemma step_next_id (st : State) (ev : Event) :
  (next_id st ≤ next_id (step st ev).1)%nat.
Proof.
  destruct ev as [b | fs | id params | id | ]; cbn [step].
  - destruct (buttons st !! b); simpl; lia.
  - simpl. lia.
  - destruct (List.find (is_request id) (pending st)) as [data|].
    + rewrite policy_done_state. simpl. lia.
    + simpl. lia.
  - simpl. lia.
  - simpl. lia.
Qed.

Lemma step_buttons (st : State) (ev : Event) :
  ev ≠ Done → buttons (step st ev).1 = buttons st.
Proof.
  destruct ev as [b | fs | id params | id | ]; cbn [step]; intros H.
  - now destruct (buttons st !! b).
  - reflexivity.
  - destruct (List.find (is_request id) (pending st)) as [data|]; [|reflexivity].
    now rewrite policy_done_state.
  - reflexivity.
  - congruence.
Qed.

(** *** After the upload completed *)

Lemma unbound_step (st : State) (ev : Event) : unbound st → unbound (step st ev).1.
Proof.
  intros H.
  assert (Hev : ev = Done ∨ ev ≠ Done) by (destruct ev; auto; now right).
  destruct Hev as [-> | Hne].
  - intros b Hb. simpl in Hb.
    apply list_elem_of_fmap in Hb as (b2 & -> & Hb).
    apply list_elem_of_fmap in Hb as (b1 & -> & _). reflexivity.
  - unfold unbound. now rewrite step_buttons.
Qed.

Lemma unbound_no_dialog (st : State) (ev : Event) (i : nat) :
  unbound st → FileDialog i ∉ (step st ev).2.
Proof.
  intros H Hin.
  apply step_dialog_inv in Hin as (b & button & _ & Hb & Hc).
  apply Hc, H. eapply list_elem_of_lookup_2, Hb.
Qed.

Lemma get_text_fmap (f : Button → Button) (bs : list Button) :
  (∀ b, text (f b) = text b) → get_text (f <$> bs) = get_text bs.
Proof.
  intros H. unfold get_text. f_equal.
  rewrite <- list_fmap_compose. apply list_fmap_ext. intros i b _. apply H.
Qed.

(** C7: once the [done] callback has run, every button of the form has no
    click handler left, carries the class [completed] and the label
    [<old label without its first "Upload "> Uploaded!]; a click then does
    nothing, and no later event of any kind opens a file dialog. *)
Theorem done_unbinds_click (st : State) :
  let st' := (step st Done).1 in
  (step st Done).2 = [ConsoleLog "done"]
  ∧ length (buttons st') = length (buttons st)
  ∧ (∀ b, b ∈ buttons st' →
       click b = []
       ∧ JS.hasClass "completed" (classes b) = true
       ∧ text b = JS.replace "Upload " "" (get_text (buttons st)) +:+ " Uploaded!")
  ∧ (∀ b, step st' (Click b) = (st', []))
  ∧ (∀ evs i, Out (FileDialog i) ∉ (run st' evs).2).
Proof.
  intros st'.
  assert (Hun : unbound st').
  { intros b Hb. subst st'. simpl in Hb.
    apply list_elem_of_fmap in Hb as (b2 & -> & Hb).
    apply list_elem_of_fmap in Hb as (b1 & -> & _). reflexivity. }
  split; [reflexivity|].
  split; [subst st'; simpl; now rewrite !length_fmap|].
  split.
  { intros b Hb. subst st'. simpl in Hb.
    apply list_elem_of_fmap in Hb as (b2 & -> & Hb).
    apply list_elem_of_fmap in Hb as (b1 & -> & Hb).
    apply list_elem_of_fmap in Hb as (b0 & -> & Hb).
    split; [reflexivity|]. split; [apply hasClass_addClass|].
    simpl. now rewrite !get_text_fmap. }
  split.
  { intros b. cbn [step].
    destruct (buttons st' !! b) as [button|] eqn:B; [|reflexivity].
    rewrite (Hun button); [reflexivity|].
    eapply list_elem_of_lookup_2, B. }
  intros evs i.
  pose proof (run_invariant
    (λ s tr, unbound s ∧ ∀ j, Out (FileDialog j) ∉ tr)) as Hinv.
  refine (proj2 (Hinv _ evs st' [] _) i).
  - intros s tr ev [Hs Htr]. split; [now apply unbound_step|].
    intros j Hj. apply elem_of_record_ext in Hj as [Hj | Hj].
    + now apply (Htr j).
    + now apply (unbound_no_dialog s ev j).
  - split; [exact Hun|]. intros j Hj. inversion Hj.
Qed.

(** *** When the policy request fails *)

Lemma fresh_ids_step (st : State) (tr : list Entry) (ev : Event) :
  fresh_ids st tr →
  fresh_ids (step st ev).1 (tr ++ In_ ev :: (Out <$> (step st ev).2)).
Proof.
  intros [Hp Ht]. pose proof (step_next_id st ev) as Hle. split.
  - intros d Hd. apply step_pending in Hd as [(Hd & _) | (fs & -> & ->)].
    + specialize (Hp d Hd). lia.
    + simpl. lia.
  - intros u fields d Hd. apply elem_of_record_ext in Hd as [Hd | Hd].
    + destruct (Ht u fields d Hd) as [H1 H2]. split; [lia|].
      intros d' Hd'. apply step_pending in Hd' as [(Hd' & _) | (fs & -> & ->)].
      * now apply H2.
      * simpl. lia.
    + apply step_post_inv in Hd as (params & -> & Hd).
      specialize (Hp d Hd). split; [lia|].
      intros d' Hd'. apply step_pending in Hd' as [(_ & Hd' & _) | (fs & E & _)].
      * now apply (Hd' _ params).
      * discriminate.
Qed.

Lemma settled_step (id : nat) (st : State) (tr : list Entry) (ev : Event) :
  settled id st tr →
  settled id (step st ev).1 (tr ++ In_ ev :: (Out <$> (step st ev).2)).
Proof.
  intros (Hid & Hp & Ht). pose proof (step_next_id st ev) as Hle.
  split; [lia|]. split.
  - intros d Hd. apply step_pending in Hd as [(Hd & _) | (fs & -> & ->)].
    + now apply Hp.
    + simpl. lia.
  - intros u fields d Hd. apply elem_of_record_ext in Hd as [Hd | Hd].
    + now apply (Ht u fields d).
    + apply step_post_inv in Hd as (params & _ & Hd). now apply Hp.
Qed.

(** C8: when the GET of a selection fails, nothing runs: no action is
    taken, the inputs and the buttons of the form are as before, the
    request is dropped, and no upload for that selection is ever sent,
    before or after. *)
Theorem policy_failure_is_silent (ins : list Input) (bs : list Button)
    (evs evs' : list Event) (id : nat) :
  let st := (run (init ins bs) evs).1 in
  (∃ d, d ∈ pending st ∧ data_id d = id) →
  (step st (PolicyFail id)).2 = []
  ∧ inputs (step st (PolicyFail id)).1 = inputs st
  ∧ buttons (step st (PolicyFail id)).1 = buttons st
  ∧ (∀ d, d ∈ pending (step st (PolicyFail id)).1 ↔ d ∈ pending st ∧ data_id d ≠ id)
  ∧ ∀ u fields d, data_id d = id →
      Out (Post u fields d) ∉ (run (init ins bs) (evs ++ PolicyFail id :: evs')).2.
Proof.
  intros st (d0 & Hd0 & Hid0).
  split; [reflexivity|]. split; [reflexivity|]. split; [reflexivity|].
  split; [intros d; apply (elem_of_settle id st d)|].
  assert (Hfresh : fresh_ids st (run (init ins bs) evs).2).
  { apply (run_invariant fresh_ids fresh_ids_step evs (init ins bs) []).
    split; [intros d Hd; inversion Hd | intros u f d Hd; inversion Hd]. }
  destruct Hfresh as [Hp Ht].
  assert (Hsettled : settled id (step st (PolicyFail id)).1
            ((run (init ins bs) evs).2 ++ In_ (PolicyFail id) :: (Out <$> (step st (PolicyFail id)).2))).
  { split; [|split].
    - simpl. rewrite <- Hid0. now apply Hp.
    - intros d Hd. now apply (elem_of_settle id st d) in Hd.
    - intros u f d Hd. apply elem_of_record_ext in Hd as [Hd | Hd].
      + destruct (Ht u f d Hd) as [_ H]. intros E.
        apply (H d0 Hd0). congruence.
      + simpl in Hd. inversion Hd. }
  pose proof (run_invariant (settled id) (settled_step id) evs' _ _ Hsettled)
    as (_ & _ & Hnever).
  intros u fields d Hd Hin. apply (Hnever u fields d); [|exact Hd].
  rewrite run_app, run_cons in Hin. cbn [fst snd] in Hin.
  fold st in Hin. rewrite <- app_assoc. exact Hin.
Qed.

(** *** A form of the site, run *)

Example sample_run :
  run (init sample_form [sample_button])
      [Click 0; Add ["cv.pdf"]; PolicyDone 0 sample_params; Done; Click 0]
  = ({| inputs :=
          [ {| name := "x-amz-meta-bucket_url"; type := "hidden"; value := "https://bucket.s3" |};
            {| name := "x-amz-meta-policy_endpoint"; type := "hidden"; value := "/policy" |};
            {| name := "key"; type := "hidden"; value := "resumes/42.pdf" |};
            {| name := "policy"; type := "hidden"; value := "eyJleHAiOjF9" |};
            {| name := "signature"; type := "hidden"; value := "c2ln" |};
            {| name := "file"; type := "file"; value := "" |} ];
        buttons :=
          [ {| classes := ["ui"; "s3"; "upload"; "button"; "completed"];
               text := "Resume Uploaded!"; click := [] |} ];
        url := Some "https://bucket.s3";
        formData := [2; 3; 4];
        pending := [];
        next_id := 1 |},
     [ In_ (Click 0); Out (FileDialog 5);
       In_ (Add ["cv.pdf"]); Out (Get (Some "/policy") 0);
       In_ (PolicyDone 0 sample_params);
       Out (Post (Some "https://bucket.s3")
              [("key", "resumes/42.pdf"); ("policy", "eyJleHAiOjF9"); ("signature", "c2ln")]
              sample_data);
       In_ Done; Out (ConsoleLog "done");
       In_ (Click 0) ]).
Proof. reflexivity. Qed.

Example sample_run_policy_failure :
  (run (init sample_form [sample_button])
       [Add ["cv.pdf"]; PolicyFail 0; PolicyDone 0 sample_params; Click 0]).2
  = [ In_ (Add ["cv.pdf"]); Out (Get (Some "/policy") 0);
      In_ (PolicyFail 0);
      In_ (PolicyDone 0 sample_params);
      In_ (Click 0); Out (FileDialog 5) ].
Proof. reflexivity. Qed.

Lemma upload_only_after_policy_witness :
  ∃ evs1 params evs2,
    [Click 0; Add ["cv.pdf"]; PolicyDone 0 sample_params; Done]
    = evs1 ++ PolicyDone (data_id sample_data) params :: evs2
    ∧ [In_ (Click 0); Out (FileDialog 5); In_ (Add ["cv.pdf"]);
       Out (Get (Some "/policy") 0); In_ (PolicyDone 0 sample_params)]
      = (run (init sample_form [sample_button]) evs1).2
        ++ [In_ (PolicyDone (data_id sample_data) params)]
    ∧ Out (Get (policy_endpoint sample_form) (data_id sample_data))
        ∈ (run (init sample_form [sample_button]) evs1).2
    ∧ let st := (run (init sample_form [sample_button])
                     (evs1 ++ [PolicyDone (data_id sample_data) params])).1 in
      (∀ e, e ∈ inputs st →
         (name e = "key" → value e = key params)
         ∧ (name e = "policy" → value e = policy params)
         ∧ (name e = "signature" → value e = signature params))
      ∧ [("key", "resumes/42.pdf"); ("policy", "eyJleHAiOjF9"); ("signature", "c2ln")]
        = form_fields st
      ∧ (∀ v, ("key", v) ∈ [("key", "resumes/42.pdf"); ("policy", "eyJleHAiOjF9");
                            ("signature", "c2ln")] → v = key params)
      ∧ (∀ v, ("policy", v) ∈ [("key", "resumes/42.pdf"); ("policy", "eyJleHAiOjF9");
                               ("signature", "c2ln")] → v = policy params)
      ∧ (∀ v, ("signature", v) ∈ [("key", "resumes/42.pdf"); ("policy", "eyJleHAiOjF9");
                                  ("signature", "c2ln")] → v = signature params)
      ∧ (∀ n, n ∈ ["key"; "policy"; "signature"] → n ∈ name <$> sample_form →
           n ∈ [("key", "resumes/42.pdf"); ("policy", "eyJleHAiOjF9");
                ("signature", "c2ln")].*1).
Proof.
  apply (upload_only_after_policy sample_form [sample_button]
           [Click 0; Add ["cv.pdf"]; PolicyDone 0 sample_params; Done]
           [In_ (Click 0); Out (FileDialog 5); In_ (Add ["cv.pdf"]);
            Out (Get (Some "/policy") 0); In_ (PolicyDone 0 sample_params)]
           [In_ Done; Out (ConsoleLog "done")]
           (Some "https://bucket.s3")).
  reflexivity.
Defined.

Lemma policy_failure_is_silent_witness :
  let st := (run (init sample_form [sample_button]) [Click 0; Add ["cv.pdf"]]).1 in
  (step st (PolicyFail 0)).2 = []
  ∧ inputs (step st (PolicyFail 0)).1 = inputs st
  ∧ buttons (step st (PolicyFail 0)).1 = buttons st
  ∧ (∀ d, d ∈ pending (step st (PolicyFail 0)).1 ↔ d ∈ pending st ∧ data_id d ≠ 0)
  ∧ ∀ u fields d, data_id d = 0 →
      Out (Post u fields d)
      ∉ (run (init sample_form [sample_button])
             ([Click 0; Add ["cv.pdf"]]
              ++ PolicyFail 0 :: [PolicyDone 0 sample_params; Click 0])).2.
Proof.
  apply (policy_failure_is_silent sample_form [sample_button]
           [Click 0; Add ["cv.pdf"]] [PolicyDone 0 sample_params; Click 0] 0).
  exists sample_data. split; [left | reflexivity].
Defined.

End UploadFacts.

(** ** JSON *)

Module JsonFacts.

Import Json.

(** *** Texts made by [stringify] read back *)

Lemma parse_chars_quote_char (c : ascii) (k cs rest : string) :
  parse_chars k = Some (cs, rest) →
  parse_chars (quote_char c +:+ k) = Some (String c cs, rest).
Proof.
  intros H.
  destruct c as [[|] [|] [|] [|] [|] [|] [|] [|]];
    match goal with
    | |- context [quote_char ?c] =>
        let t := eval vm_compute in (quote_char c) in
        change (quote_char c) with t
    end;
    rewrite ?append_cons, ?append_nil;
    simpl; rewrite H; reflexivity.
Qed.

Lemma parse_chars_quote_chars (s rest : string) :
  parse_chars (quote_chars s +:+ String dquote rest) = Some (s, rest).
Proof.
  induction s as [|c s IH]; [reflexivity|].
  cbn [quote_chars]. rewrite append_assoc.
  now apply parse_chars_quote_char.
Qed.

Lemma quote_append (s rest : string) :
  quote s +:+ rest = String dquote (quote_chars s +:+ String dquote rest).
Proof. unfold quote. now norm_append. Qed.

Lemma parse_value_quote (fuel : nat) (s rest : string) :
  parse_value (S fuel) (quote s +:+ rest) = Some (JString s, rest).
Proof.
  rewrite quote_append. cbn [parse_value skip_ws].
  change (is_ws dquote) with false. cbn iota.
  change (Ascii.eqb dquote dquote) with true. cbn iota.
  now rewrite parse_chars_quote_chars.
Qed.

Lemma serialize_strings (ps : list (string * string)) :
  serialize (JObject (strings ps))
  = "{" +:+ String.concat "," (member_text <$> ps) +:+ "}".
Proof.
  cbn [serialize].
  match goal with
  | |- context [String.concat "," (?members (strings ps))] =>
      assert (H : ∀ l, members (strings l) = member_text <$> l)
  end.
  { induction l as [|[k v] l IH]; [reflexivity|].
    change (strings ((k, v) :: l)) with ((k, JString v) :: strings l).
    cbn [is_defined fmap list_fmap]. now rewrite IH. }
  now rewrite H.
Qed.

Lemma parse_member (fuel : nat) (k v tail : string) :
  parse_members (S (S fuel)) (member_text (k, v) +:+ tail)
  = match skip_ws tail with
    | String "," r =>
        match parse_members (S fuel) r with
        | Some (ps, r') => Some ((k, JString v) :: ps, r')
        | None => None
        end
    | String "}" r => Some ([(k, JString v)], r)
    | _ => None
    end.
Proof.
  unfold member_text. cbn [fst snd].
  rewrite append_assoc, quote_append.
  cbn [parse_members skip_ws].
  change (is_ws dquote) with false. cbn iota.
  change (Ascii.eqb dquote dquote) with true. cbn iota.
  rewrite parse_chars_quote_chars.
  rewrite append_assoc, append_cons, append_nil.
  cbn [skip_ws]. change (is_ws ":") with false. cbn iota.
  now rewrite parse_value_quote.
Qed.

Lemma parse_members_strings (ps : list (string * string)) (fuel : nat) (rest : string) :
  ps ≠ [] →
  parse_members (S (length ps + fuel))
    (String.concat "," (member_text <$> ps) +:+ String "}" rest)
  = Some (strings ps, rest).
Proof.
  revert fuel. induction ps as [|kv ps IH]; intros fuel Hne; [congruence|].
  destruct ps as [|kv' ps].
  - destruct kv as [k v]. cbn [fmap list_fmap String.concat length Nat.add].
    now rewrite parse_member.
  - destruct kv as [k v].
    change (String.concat "," (member_text <$> (k, v) :: kv' :: ps))
      with (member_text (k, v) +:+ "," +:+ String.concat "," (member_text <$> kv' :: ps)).
    rewrite !append_assoc, append_cons, append_nil.
    change (length ((k, v) :: kv' :: ps) + fuel) with (S (length (kv' :: ps) + fuel)).
    rewrite parse_member. cbn [skip_ws].
    change (is_ws ",") with false. cbn iota.
    now rewrite IH.
Qed.

Lemma length_append (s1 s2 : string) :
  String.length (s1 +:+ s2) = String.length s1 + String.length s2.
Proof.
  induction s1 as [|c s1 IH]; [reflexivity|].
  rewrite append_cons. simpl. now rewrite IH.
Qed.

Lemma members_head (ps : list (string * string)) (rest : string) :
  ps ≠ [] →
  ∃ t, String.concat "," (member_text <$> ps) +:+ rest = String dquote t.
Proof.
  destruct ps as [|[k v] [|kv ps]]; [congruence| |]; intros _.
  - cbn [fmap list_fmap String.concat]. unfold member_text. cbn [fst snd].
    rewrite append_assoc, quote_append. eauto.
  - change (String.concat "," (member_text <$> (k, v) :: kv :: ps))
      with (member_text (k, v) +:+ "," +:+ String.concat "," (member_text <$> kv :: ps)).
    unfold member_text at 1. cbn [fst snd].
    rewrite !append_assoc, quote_append. eauto.
Qed.

Lemma members_length (ps : list (string * string)) :
  (length ps ≤ String.length (String.concat "," (member_text <$> ps)))%nat.
Proof.
  induction ps as [|[k v] ps IH]; [simpl; lia|].
  destruct ps as [|kv ps].
  - cbn [fmap list_fmap String.concat]. unfold member_text, quote.
    rewrite !length_append. simpl. lia.
  - change (String.concat "," (member_text <$> (k, v) :: kv :: ps))
      with (member_text (k, v) +:+ "," +:+ String.concat "," (member_text <$> kv :: ps)).
    rewrite !length_append. simpl in *. lia.
Qed.

(** The text [JSON.stringify] makes of an object of strings reads back as
    that object. *)
Lemma parse_serialize_strings (ps : list (string * string)) :
  parse (serialize (JObject (strings ps))) = Some (JObject (strings ps)).
Proof.
  destruct ps as [|kv ps]; [reflexivity|].
  set (l := kv :: ps). assert (Hne : l ≠ []) by discriminate.
  rewrite serialize_strings. unfold parse.
  rewrite append_cons, append_nil.
  set (text := String.concat "," (member_text <$> l) +:+ "}").
  assert (F : ∃ k, 2 * String.length (String "{" text) + 2 = S (S (length l + k))).
  { assert (Hl : (length l ≤ String.length text)%nat).
    { pose proof (members_length l). subst text. rewrite length_append. lia. }
    exists (2 * String.length text + 2 - length l).
    cbn [String.length]. lia. }
  destruct F as [k ->].
  cbn [parse_value skip_ws]. change (is_ws "{") with false. cbn iota.
  change (Ascii.eqb "{" dquote) with false.
  change (Ascii.eqb "{" "[") with false.
  change (Ascii.eqb "{" "{") with true. cbn iota.
  destruct (members_head l "}" Hne) as [t Ht]. fold text in Ht.
  rewrite Ht. cbn [skip_ws]. change (is_ws dquote) with false. cbn iota.
  rewrite <- Ht. subst text.
  rewrite parse_members_strings by exact Hne.
  reflexivity.
Qed.

End JsonFacts.

(** ** The confirmation form controller *)

Module ConfirmationFacts.

Import Json Confirmation.

(** *** Submission *)

Lemma submitConfirmation_eq (p : Page) :
  submitConfirmation p
  = (Returned (),
     set_requests (requests p ++ [put_admits (stringify (JObject (confirmation (fields p))))])
       (set_dimmer true p)).
Proof. reflexivity. Qed.

Lemma form_prompts_eq (f : Fields) :
  form_prompts f
  = (if String.eqb (badge f) ""
     then ["Please enter the name you wanted printed on your badge!"] else [])
    ++ (if String.eqb (diet f) "" then ["Please enter a dietary restriction!"] else [])
    ++ (if String.eqb (waiver f) "" then ["Please enter your full legal name."] else [])
    ++ (if String.eqb (photoRelease f) "" then ["Please enter your full legal name."] else []).
Proof.
  unfold form_prompts, field_prompts. simpl. unfold rule_holds. simpl.
  destruct (String.eqb (badge f) ""), (String.eqb (diet f) ""),
    (String.eqb (waiver f) ""), (String.eqb (photoRelease f) ""); reflexivity.
Qed.

Lemma form_prompts_valid (f : Fields) : all_required f → form_prompts f = [].
Proof.
  intros (B & D & W & P). rewrite form_prompts_eq.
  apply String.eqb_neq in B, D, W, P. now rewrite B, D, W, P.
Qed.

Lemma form_prompts_invalid (f : Fields) :
  badge f = "" ∨ diet f = "" ∨ waiver f = "" ∨ photoRelease f = "" →
  form_prompts f ≠ [].
Proof.
  rewrite form_prompts_eq.
  intros [H | [H | [H | H]]]; rewrite H; simpl;
    destruct (String.eqb (badge f) ""), (String.eqb (diet f) ""),
      (String.eqb (waiver f) ""); discriminate.
Qed.

Lemma submit_valid (p : Page) :
  all_required (fields p) → submit p = submitConfirmation p.
Proof.
  intros H. unfold submit, validate, get, mbind, M_bind.
  now rewrite (form_prompts_valid _ H).
Qed.

Lemma serialize_confirmation_text (f : Fields) :
  serialize (JObject (confirmation f)) = confirmation_text f.
Proof.
  unfold confirmation, confirmation_text.
  simpl. unfold quote. simpl. norm_append. reflexivity.
Qed.

Lemma serialize_confirmation (f : Fields) :
  stringify (JObject (confirmation f)) = Some (confirmation_text f).
Proof. unfold stringify. f_equal. apply serialize_confirmation_text. Qed.

Lemma parse_confirmation_text (f : Fields) :
  parse (confirmation_text f) = Some (JObject (confirmation f)).
Proof.
  rewrite <- serialize_confirmation_text.
  apply (JsonFacts.parse_serialize_strings
           [ ("badge", badge f); ("phone", phone f); ("shirt", shirt f);
             ("diet", diet f); ("waiver", waiver f);
             ("photoRelease", photoRelease f) ]).
Qed.

(** C3: a submission with the four validated fields filled sends exactly
    one request: a PUT to [/admits] whose body is the JSON text of the
    object with the six keys [badge], [phone], [shirt], [diet], [waiver],
    [photoRelease], each bound to the value of its field; read back, the
    body is that object. *)
Theorem submit_valid_puts_once (p : Page) :
  badge (fields p) ≠ "" → diet (fields p) ≠ "" →
  waiver (fields p) ≠ "" → photoRelease (fields p) ≠ "" →
  ∃ p' body,
    submit p = (Returned (), p')
    ∧ requests p' = requests p ++
        [ {| Ajax.url := "/admits"; Ajax.type := "PUT";
             Ajax.contentType := "application/json"; Ajax.dataType := "json";
             Ajax.data := Some body |} ]
    ∧ stringify (JObject [ ("badge", JString (badge (fields p)));
                           ("phone", JString (phone (fields p)));
                           ("shirt", JString (shirt (fields p)));
                           ("diet", JString (diet (fields p)));
                           ("waiver", JString (waiver (fields p)));
                           ("photoRelease", JString (photoRelease (fields p))) ])
      = Some body
    ∧ body = q "{'badge':" +:+ quote (badge (fields p))
             +:+ q ",'phone':" +:+ quote (phone (fields p))
             +:+ q ",'shirt':" +:+ quote (shirt (fields p))
             +:+ q ",'diet':" +:+ quote (diet (fields p))
             +:+ q ",'waiver':" +:+ quote (waiver (fields p))
             +:+ q ",'photoRelease':" +:+ quote (photoRelease (fields p))
             +:+ "}"
    ∧ parse body
      = Some (JObject [ ("badge", JString (badge (fields p)));
                        ("phone", JString (phone (fields p)));
                        ("shirt", JString (shirt (fields p)));
                        ("diet", JString (diet (fields p)));
                        ("waiver", JString (waiver (fields p)));
                        ("photoRelease", JString (photoRelease (fields p))) ]).
Proof.
  intros B D W P.
  rewrite submit_valid by (now repeat split).
  rewrite submitConfirmation_eq, serialize_confirmation.
  eexists _, (confirmation_text (fields p)).
  split; [reflexivity|]. split; [reflexivity|].
  split; [apply serialize_confirmation|]. split; [reflexivity|].
  apply parse_confirmation_text.
Qed.

Lemma submit_valid_puts_once_witness :
  ∃ p' body,
    submit sample_page = (Returned (), p')
    ∧ requests p' = [] ++
        [ {| Ajax.url := "/admits"; Ajax.type := "PUT";
             Ajax.contentType := "application/json"; Ajax.dataType := "json";
             Ajax.data := Some body |} ]
    ∧ stringify (JObject [ ("badge", JString "Ada");
                           ("phone", JString "");
                           ("shirt", JString "");
                           ("diet", JString "none");
                           ("waiver", JString "Ada Lovelace");
                           ("photoRelease", JString "Ada Lovelace") ])
      = Some body
    ∧ body = q "{'badge':" +:+ quote "Ada"
             +:+ q ",'phone':" +:+ quote ""
             +:+ q ",'shirt':" +:+ quote ""
             +:+ q ",'diet':" +:+ quote "none"
             +:+ q ",'waiver':" +:+ quote "Ada Lovelace"
             +:+ q ",'photoRelease':" +:+ quote "Ada Lovelace"
             +:+ "}"
    ∧ parse body
      = Some (JObject [ ("badge", JString "Ada");
                        ("phone", JString "");
                        ("shirt", JString "");
                        ("diet", JString "none");
                        ("waiver", JString "Ada Lovelace");
                        ("photoRelease", JString "Ada Lovelace") ]).
Proof.
  apply (submit_valid_puts_once sample_page); discriminate.
Defined.

Example sample_body :
  confirmation_text (fields sample_page)
  = q "{'badge':'Ada','phone':'','shirt':'','diet':'none','waiver':'Ada Lovelace','photoRelease':'Ada Lovelace'}".
Proof. reflexivity. Qed.

(** C10: no rule names [phone] or [shirt], and a submission with the four
    validated fields filled sends the PUT whatever [phone] and [shirt]
    hold; when one of them is empty its key is bound to the empty string. *)
Theorem submit_sends_unvalidated_phone_and_shirt (p : Page) :
  badge (fields p) ≠ "" → diet (fields p) ≠ "" →
  waiver (fields p) ≠ "" → photoRelease (fields p) ≠ "" →
  (∀ entry, entry ∈ validation →
     identifier entry.2 ≠ "phone" ∧ identifier entry.2 ≠ "shirt")
  ∧ ∃ p' props,
      submit p = (Returned (), p')
      ∧ requests p' = requests p ++
          [ {| Ajax.url := "/admits"; Ajax.type := "PUT";
               Ajax.contentType := "application/json"; Ajax.dataType := "json";
               Ajax.data := stringify (JObject props) |} ]
      ∧ lookup "phone" props = Some (JString (phone (fields p)))
      ∧ lookup "shirt" props = Some (JString (shirt (fields p)))
      ∧ (phone (fields p) = "" → shirt (fields p) = "" →
         stringify (JObject props)
         = Some (q "{'badge':" +:+ quote (badge (fields p))
                 +:+ q ",'phone':'','shirt':'','diet':" +:+ quote (diet (fields p))
                 +:+ q ",'waiver':" +:+ quote (waiver (fields p))
                 +:+ q ",'photoRelease':" +:+ quote (photoRelease (fields p))
                 +:+ "}")).
Proof.
  intros B D W P. split.
  - intros entry H. apply list_elem_of_In in H. simpl in H.
    destruct H as [<- | [<- | [<- | [<- | []]]]]; split; discriminate.
  - rewrite submit_valid by (now repeat split).
    rewrite submitConfirmation_eq.
    eexists _, (confirmation (fields p)).
    split; [reflexivity|]. split; [reflexivity|].
    split; [reflexivity|]. split; [reflexivity|].
    intros Hp Hs. rewrite serialize_confirmation. f_equal.
    unfold confirmation_text. rewrite Hp, Hs.
    unfold quote. simpl. norm_append. reflexivity.
Qed.

Lemma submit_sends_unvalidated_phone_and_shirt_witness :
  (∀ entry, entry ∈ validation →
     identifier entry.2 ≠ "phone" ∧ identifier entry.2 ≠ "shirt")
  ∧ ∃ p' props,
      submit sample_page = (Returned (), p')
      ∧ requests p' = [] ++
          [ {| Ajax.url := "/admits"; Ajax.type := "PUT";
               Ajax.contentType := "application/json"; Ajax.dataType := "json";
               Ajax.data := stringify (JObject props) |} ]
      ∧ lookup "phone" props = Some (JString "")
      ∧ lookup "shirt" props = Some (JString "")
      ∧ ("" = "" → "" = "" →
         stringify (JObject props)
         = Some (q "{'badge':" +:+ quote "Ada"
                 +:+ q ",'phone':'','shirt':'','diet':" +:+ quote "none"
                 +:+ q ",'waiver':" +:+ quote "Ada Lovelace"
                 +:+ q ",'photoRelease':" +:+ quote "Ada Lovelace"
                 +:+ "}")).
Proof.
  apply (submit_sends_unvalidated_phone_and_shirt sample_page); discriminate.
Defined.

(** C4: a submission with one of the four required fields empty sends no
    request and does not reach [submitConfirmation]: the page is as before
    but for the form, which gets the class [error] and shows the prompt of
    each empty field; nothing navigates. *)
Theorem submit_invalid_sends_nothing (p : Page) :
  badge (fields p) = "" ∨ diet (fields p) = ""
  ∨ waiver (fields p) = "" ∨ photoRelease (fields p) = "" →
  ∃ p',
    submit p = (Returned (), p')
    ∧ p' = set_form_errors (JString <$> form_prompts (fields p))
             (set_form_classes (JS.addClass "error" (form_classes p)) p)
    ∧ requests p' = requests p
    ∧ dimmer p' = dimmer p
    ∧ location p' = location p
    ∧ timers p' = timers p
    ∧ JS.hasClass "error" (form_classes p') = true
    ∧ form_errors p' ≠ []
    ∧ (badge (fields p) = "" →
       JString "Please enter the name you wanted printed on your badge!" ∈ form_errors p')
    ∧ (diet (fields p) = "" →
       JString "Please enter a dietary restriction!" ∈ form_errors p')
    ∧ (waiver (fields p) = "" →
       JString "Please enter your full legal name." ∈ form_errors p')
    ∧ (photoRelease (fields p) = "" →
       JString "Please enter your full legal name." ∈ form_errors p').
Proof.
  intros H.
  exists (set_form_errors (JString <$> form_prompts (fields p))
            (set_form_classes (JS.addClass "error" (form_classes p)) p)).
  split.
  - unfold submit, get, mbind, M_bind.
    pose proof (form_prompts_invalid _ H) as Hne.
    destruct (form_prompts (fields p)) as [|s l] eqn:E; [congruence|].
    reflexivity.
  - split; [reflexivity|]. split; [reflexivity|]. split; [reflexivity|].
    split; [reflexivity|]. split; [reflexivity|].
    split; [apply hasClass_addClass|].
    cbn [form_errors set_form_errors]. split.
    { pose proof (form_prompts_invalid _ H) as Hne.
      destruct (form_prompts (fields p)); [congruence | discriminate]. }
    rewrite form_prompts_eq.
    repeat split; intros E; rewrite E; cbn [String.eqb];
      apply list_elem_of_fmap_2; rewrite !elem_of_app;
      auto using list_elem_of_here.
Qed.

Lemma submit_invalid_sends_nothing_witness :
  let p := set_location "/confirm"
             {| fields := {| badge := ""; phone := "555"; shirt := "M";
                             diet := "none"; waiver := "";
                             photoRelease := "Ada Lovelace" |};
                form_classes := ["ui"; "form"]; form_errors := [];
                dimmer := false; dimmer_message := None; timers := [];
                now := 0; location := "/"; requests := [] |} in
  submit p
  = (Returned (),
     set_form_errors
       [ JString "Please enter the name you wanted printed on your badge!";
         JString "Please enter your full legal name." ]
       (set_form_classes ["ui"; "form"; "error"] p)).
Proof.
  cbv zeta.
  destruct (submit_invalid_sends_nothing
              (set_location "/confirm"
                 {| fields := {| badge := ""; phone := "555"; shirt := "M";
                                 diet := "none"; waiver := "";
                                 photoRelease := "Ada Lovelace" |};
                    form_classes := ["ui"; "form"]; form_errors := [];
                    dimmer := false; dimmer_message := None; timers := [];
                    now := 0; location := "/"; requests := [] |})
              (or_introl eq_refl)) as (p' & Hp' & -> & _).
  exact Hp'.
Defined.

(** *** The answer of the server *)

Lemma location_run_callbacks (cbs : list Callback) (p : Page) :
  location (foldl run_callback p cbs)
  = match cbs with [] => location p | _ => "/dashboard" end.
Proof.
  revert p. induction cbs as [|cb cbs IH]; intros p; [reflexivity|].
  simpl. rewrite IH. destruct cb. now destruct cbs.
Qed.

Lemma location_elapse (ms : nat) (p : Page) :
  location (elapse ms p)
  = match List.filter (λ timer, Nat.leb (fst timer) (now p + ms)) (timers p) with
    | [] => location p
    | _ => "/dashboard"
    end.
Proof.
  unfold elapse. rewrite location_run_callbacks.
  now destruct (List.filter _ (timers p)).
Qed.

(** C5: the success callback hides the overlay at once and shows the
    confirmation message, without navigating yet; the page is at
    [/dashboard] once 1500 ms have gone by, and not before (when no timer
    set earlier comes due in between). *)
Theorem success_hides_then_navigates (data : Value) (p : Page) :
  ∃ p',
    success data p = (Returned (), p')
    ∧ dimmer p' = false
    ∧ dimmer_message p' = Some ("Your confirmation has been saved!", "And now we wait...")
    ∧ timers p' = timers p ++ [((now p + 1500)%nat, GoToDashboard)]
    ∧ location p' = location p
    ∧ requests p' = requests p
    ∧ (∀ ms, (1500 ≤ ms)%nat → location (elapse ms p') = "/dashboard")
    ∧ (∀ ms, (ms < 1500)%nat →
         (∀ timer, timer ∈ timers p → (now p + ms < timer.1)%nat) →
         location (elapse ms p') = location p).
Proof.
  eexists. split; [reflexivity|].
  split; [reflexivity|]. split; [reflexivity|]. split; [reflexivity|].
  split; [reflexivity|]. split; [reflexivity|]. split.
  - intros ms Hms. rewrite location_elapse. cbn [timers set_timers now set_dimmer_message set_dimmer].
    rewrite List.filter_app. cbn [List.filter fst].
    assert (E : Nat.leb (now p + 1500) (now p + ms) = true)
      by (apply Nat.leb_le; lia).
    rewrite E.
    now destruct (List.filter _ (timers p)).
  - intros ms Hms Hlater. rewrite location_elapse.
    cbn [timers set_timers now set_dimmer_message set_dimmer location].
    rewrite List.filter_app. cbn [List.filter fst].
    assert (E : Nat.leb (now p + 1500) (now p + ms) = false)
      by (apply Nat.leb_gt; lia).
    rewrite E, app_nil_r.
    assert (F : List.filter (λ timer : nat * Callback, Nat.leb timer.1 (now p + ms)) (timers p) = []).
    { induction (timers p) as [|t ts IH]; [reflexivity|].
      simpl. assert (Ht : Nat.leb t.1 (now p + ms) = false).
      { apply Nat.leb_gt, Hlater. left. }
      rewrite Ht. apply IH. intros timer Hin. apply Hlater. now right. }
    now rewrite F.
Qed.

Section ErrorHandler.

Variable JSON_parse : string → option Value.

Lemma error_eq (responseText : string) (p : Page) :
  error JSON_parse responseText p
  = match JSON_parse responseText with
    | None => (Thrown SyntaxError, set_dimmer false p)
    | Some v =>
        match message v with
        | None => (Thrown TypeError, set_dimmer false p)
        | Some m =>
            (Returned (),
             set_form_errors [m]
               (set_form_classes
                  (JS.addClass "error"
                     (JS.removeClass "success" (form_classes p)))
                  (set_dimmer false p)))
        end
    end.
Proof.
  unfold error, mbind, M_bind, dimmer_hide, modify.
  destruct (JSON_parse responseText) as [v|]; [|reflexivity].
  unfold mret, M_ret. destruct (message v); reflexivity.
Qed.

(** C6: on an error response whose body reads as a JSON value with the
    [message] property [M], a string, the overlay is hidden, the form
    shows exactly [M], has the class [error] and not [success], and
    nothing navigates. *)
Theorem error_shows_message (responseText M : string) (v : Value) (p : Page) :
  JSON_parse responseText = Some v →
  message v = Some (JString M) →
  ∃ p',
    error JSON_parse responseText p = (Returned (), p')
    ∧ dimmer p' = false
    ∧ form_errors p' = [JString M]
    ∧ JS.hasClass "error" (form_classes p') = true
    ∧ JS.hasClass "success" (form_classes p') = false
    ∧ location p' = location p
    ∧ timers p' = timers p
    ∧ requests p' = requests p
    ∧ fields p' = fields p.
Proof.
  intros Hv Hm. rewrite error_eq, Hv, Hm. eexists. split; [reflexivity|].
  cbn [dimmer form_errors form_classes location timers requests fields
       set_form_errors set_form_classes set_dimmer].
  repeat split.
  - apply hasClass_addClass.
  - rewrite hasClass_addClass_ne by discriminate.
    apply hasClass_removeClass.
Qed.

(** C9, as the code has it: on a body that is not JSON the callback ends
    in a [SyntaxError] after hiding the overlay, and the form is left as
    it was; on the body [null] it ends in a [TypeError] likewise; whenever
    the callback shows an entry, the body reads as a JSON value other than
    [null] and the entry is its [message] property, which is [undefined]
    when the value has none. *)
Theorem error_is_partial (responseText : string) (p : Page) :
  (JSON_parse responseText = None →
   error JSON_parse responseText p = (Thrown SyntaxError, set_dimmer false p))
  ∧ (JSON_parse responseText = Some JNull →
     error JSON_parse responseText p = (Thrown TypeError, set_dimmer false p))
  ∧ (∀ e p', error JSON_parse responseText p = (Thrown e, p') →
       form_errors p' = form_errors p ∧ form_classes p' = form_classes p
       ∧ dimmer p' = false)
  ∧ (∀ p', error JSON_parse responseText p = (Returned (), p') →
       ∃ v m, JSON_parse responseText = Some v ∧ v ≠ JNull
              ∧ message v = Some m ∧ form_errors p' = [m]
              ∧ (∀ props, v = JObject props →
                   m = default JUndefined (lookup "message" props))
              ∧ ((∀ props, v ≠ JObject props) → m = JUndefined)).
Proof.
  rewrite error_eq. split; [|split; [|split]].
  - now intros ->.
  - now intros ->.
  - intros e p'.
    destruct (JSON_parse responseText) as [v|]; [destruct (message v)|];
      intros [= _ <-]; now repeat split.
  - intros p'.
    destruct (JSON_parse responseText) as [v|]; [|discriminate].
    destruct (message v) as [m|] eqn:Hm; [|discriminate].
    intros [= <-]. exists v, m.
    split; [reflexivity|]. split; [now intros ->|].
    split; [exact Hm|]. split; [reflexivity|]. split.
    + intros props ->. simpl in Hm. congruence.
    + intros Hno. destruct v; simpl in Hm; try congruence.
      now destruct (Hno props).
Qed.

End ErrorHandler.

(** *** The callbacks run on response bodies *)

Example error_badge_required :
  error parse (q "{'message':'Badge required'}") (set_dimmer true sample_page)
  = (Returned (),
     set_form_errors [JString "Badge required"]
       (set_form_classes ["ui"; "form"; "error"] sample_page)).
Proof. reflexivity. Qed.

Example error_not_json :
  error parse "Internal Server Error" (set_dimmer true sample_page)
  = (Thrown SyntaxError, sample_page).
Proof. reflexivity. Qed.

Example error_null :
  error parse "null" (set_dimmer true sample_page)
  = (Thrown TypeError, sample_page).
Proof. reflexivity. Qed.

(** With the reader of this file the body can be any text [JSON.stringify]
    makes of [{message: M}]: the form shows [M], whatever the string. *)
Lemma error_shows_any_message (M : string) (p : Page) :
  error parse (serialize (JObject [("message", JString M)])) p
  = (Returned (),
     set_form_errors [JString M]
       (set_form_classes
          (JS.addClass "error" (JS.removeClass "success" (form_classes p)))
          (set_dimmer false p))).
Proof.
  rewrite error_eq.
  change (JObject [("message", JString M)])
    with (JObject (strings [("message", M)])).
  now rewrite JsonFacts.parse_serialize_strings.
Qed.

Lemma error_shows_message_witness :
  ∃ p',
    error parse (q "{'message':'Badge required'}") (set_dimmer true sample_page)
    = (Returned (), p')
    ∧ dimmer p' = false
    ∧ form_errors p' = [JString "Badge required"]
    ∧ JS.hasClass "error" (form_classes p') = true
    ∧ JS.hasClass "success" (form_classes p') = false
    ∧ location p' = "/confirm"
    ∧ timers p' = []
    ∧ requests p' = []
    ∧ fields p' = fields sample_page.
Proof.
  apply (error_shows_message parse (q "{'message':'Badge required'}")
           "Badge required" (JObject [("message", JString "Badge required")])
           (set_dimmer true sample_page));
    reflexivity.
Defined.

(** C9, as stated, fails: the body [{}] is JSON and has no [message]
    field, and the callback still puts the form in its error state, with
    one entry, [undefined]. *)
Lemma error_shows_entry_without_message_field :
  parse (q "{}") = Some (JObject [])
  ∧ lookup "message" [] = None
  ∧ error parse (q "{}") (set_dimmer true sample_page)
    = (Returned (),
       set_form_errors [JUndefined]
         (set_form_classes ["ui"; "form"; "error"] sample_page))
  ∧ ¬ (∀ body p p',
         error parse body p = (Returned (), p') →
         ∃ props m, parse body = Some (JObject props)
                    ∧ lookup "message" props = Some m).
Proof.
  split; [reflexivity|]. split; [reflexivity|]. split; [reflexivity|].
  intros H.
  destruct (H (q "{}") (set_dimmer true sample_page) _ eq_refl)
    as (props & m & Hp & Hm).
  injection Hp as <-. discriminate.
Qed.

End ConfirmationFacts.

(** * Further properties *)

(** ** The upload controller *)

Module UploadMore.

Import Upload UploadFacts.

(** *** What a run keeps of the form *)

Lemma same_input_refl (e : Input) : same_input e e.
Proof. now repeat split. Qed.

Lemma same_input_write (n v : string) (e e' : Input) :
  is_policy_name n = true → same_input e e' → same_input e (write n v e').
Proof.
  intros Hn (H1 & H2 & H3). unfold write.
  destruct (String.eqb (name e') n) eqn:E; [|now repeat split].
  repeat split; simpl; [exact H1 | exact H2 |].
  intros Hp. apply String.eqb_eq in E. congruence.
Qed.

Lemma step_inputs (st : State) (ev : Event) :
  inputs (step st ev).1 = inputs st
  ∨ ∃ params, inputs (step st ev).1 = populate params <$> inputs st.
Proof.
  destruct ev as [b | fs | id params | id | ]; cbn [step].
  - left. now destruct (buttons st !! b).
  - now left.
  - destruct (List.find (is_request id) (pending st)) as [data|]; [|now left].
    right. exists params. rewrite policy_done_state. simpl.
    rewrite <- !list_fmap_compose. reflexivity.
  - now left.
  - now left.
Qed.

Lemma same_inputs_step (ins : list Input) (st : State) (ev : Event) :
  Forall2 same_input ins (inputs st) →
  Forall2 same_input ins (inputs (step st ev).1).
Proof.
  intros H. destruct (step_inputs st ev) as [-> | (params & ->)]; [exact H|].
  apply Forall2_fmap_r. eapply Forall2_impl; [exact H|].
  intros e e' He. unfold populate.
  repeat apply same_input_write; try reflexivity. exact He.
Qed.

Lemma run_state_invariant (P : State → Prop) :
  (∀ st ev, P st → P (step st ev).1) →
  ∀ evs st, P st → P (run st evs).1.
Proof.
  intros Hstep evs st HP.
  apply (run_invariant (λ s _, P s) (λ s _ ev, Hstep s ev) evs st [] HP).
Qed.

Lemma script_inputs_kept (ins : list Input) (bs : list Button) (evs : list Event) :
  Forall2 same_input ins (inputs (run (init ins bs) evs).1).
Proof.
  apply (run_state_invariant (λ s, Forall2 same_input ins (inputs s))).
  - intros st ev. apply same_inputs_step.
  - simpl. apply Forall_Forall2_diag, Forall_forall. intros e _.
    apply same_input_refl.
Qed.

(** X4: in every run the inputs of the page are those of the form, one for
    one, with the same names and types, and the same values but for the
    inputs named [key], [policy] and [signature]: the script writes to no
    other input. *)
Theorem script_writes_only_policy_inputs (ins : list Input) (bs : list Button)
    (evs : list Event) :
  Forall2 same_input ins (inputs (run (init ins bs) evs).1)
  ∧ ∀ i e, ins !! i = Some e → is_policy_name (name e) = false →
           inputs (run (init ins bs) evs).1 !! i = Some e.
Proof.
  pose proof (script_inputs_kept ins bs evs) as H.
  split; [exact H|].
  intros i e Hi Hp.
  destruct (Forall2_lookup_l _ _ _ _ _ H Hi) as (e' & Hi' & Hn & Ht & Hv).
  rewrite Hi'. f_equal. specialize (Hv Hp).
  destruct e, e'. simpl in *. congruence.
Qed.

(** *** The upload request *)

Lemma find_snoc (sel : Input → bool) (dom : list Input) (e : Input) :
  find sel (dom ++ [e]) = find sel dom ++ (if sel e then [length dom] else []).
Proof.
  unfold find. rewrite length_app. simpl length.
  rewrite Nat.add_1_r, seq_S, List.filter_app. simpl. f_equal.
  - apply filter_ext_in. intros i Hi. apply in_seq in Hi.
    rewrite lookup_app_l by lia. reflexivity.
  - rewrite list_lookup_middle by reflexivity. reflexivity.
Qed.

Lemma omap_ext_in {A B} (f g : A → option B) (l : list A) :
  (∀ x, x ∈ l → f x = g x) → omap f l = omap g l.
Proof.
  induction l as [|x l IH]; intros H; [reflexivity|].
  change (match f x with Some y => y :: omap f l | None => omap f l end
          = match g x with Some y => y :: omap g l | None => omap g l end).
  rewrite (H x) by left. rewrite IH; [reflexivity|].
  intros y Hy. apply H. now right.
Qed.

(** Reading the elements of [find sel dom] off [dom] gives the inputs of
    [dom] that [sel] selects, in order. *)
Lemma omap_lookup_find {B} (g : Input → B) (sel : Input → bool) (dom : list Input) :
  omap (λ r, g <$> dom !! r) (find sel dom) = g <$> List.filter sel dom.
Proof.
  induction dom as [|e dom IH] using rev_ind; [reflexivity|].
  rewrite find_snoc, omap_app, List.filter_app, fmap_app. f_equal.
  - rewrite <- IH. apply omap_ext_in.
    intros r Hr. apply elem_of_find in Hr as (e' & He' & _).
    rewrite lookup_app_l by (now apply lookup_lt_Some in He').
    reflexivity.
  - simpl. destruct (sel e); [|reflexivity]. simpl.
    rewrite list_lookup_middle by reflexivity. reflexivity.
Qed.

Lemma getSanitizedData_kept (form : list Input) :
  getSanitizedData form = find kept form.
Proof. exact (getSanitizedData_find form). Qed.

Lemma find_kept_names (dom dom' : list Input) :
  name <$> dom' = name <$> dom → find kept dom' = find kept dom.
Proof.
  intros H. unfold find.
  assert (L : length dom' = length dom).
  { rewrite <- (length_fmap name dom'), H. apply length_fmap. }
  rewrite L. apply filter_ext. intros i.
  assert (E : name <$> dom' !! i = name <$> dom !! i)
    by (rewrite <- !list_lookup_fmap; now rewrite H).
  destruct (dom' !! i) as [e'|], (dom !! i) as [e|]; try discriminate; [|reflexivity].
  simpl in E. unfold kept. congruence.
Qed.

Lemma name_populate (params : Params) (e : Input) : name (populate params e) = name e.
Proof. unfold populate. now rewrite !name_write. Qed.

Lemma value_populate (params : Params) (e : Input) :
  value (populate params e)
  = if String.eqb (name e) "signature" then signature params
    else if String.eqb (name e) "policy" then policy params
    else if String.eqb (name e) "key" then key params
    else value e.
Proof. unfold populate. now rewrite !value_write, !name_write. Qed.

Lemma populate_same_input (params : Params) (e e' : Input) :
  same_input e e' → populate params e' = populate params e.
Proof.
  intros (Hn & Ht & Hv).
  assert (V : value (populate params e') = value (populate params e)).
  { rewrite !value_populate, Hn.
    destruct (String.eqb (name e) "signature") eqn:S; [reflexivity|].
    destruct (String.eqb (name e) "policy") eqn:P; [reflexivity|].
    destruct (String.eqb (name e) "key") eqn:K; [reflexivity|].
    apply Hv. unfold is_policy_name. now rewrite S, P, K. }
  assert (N : name (populate params e') = name (populate params e))
    by (now rewrite !name_populate).
  assert (T : type (populate params e') = type (populate params e)).
  { unfold populate, write. rewrite Ht.
    repeat match goal with |- context [if ?c then _ else _] => destruct c; simpl end;
      reflexivity || exact Ht. }
  destruct (populate params e'), (populate params e). simpl in *. congruence.
Qed.

Lemma populate_inputs (params : Params) (ins dom : list Input) :
  Forall2 same_input ins dom → populate params <$> dom = populate params <$> ins.
Proof.
  induction 1 as [|e e' ins dom He _ IH]; [reflexivity|].
  simpl. f_equal; [now apply populate_same_input | exact IH].
Qed.

Lemma filter_kept_populate (params : Params) (ins : list Input) :
  List.filter kept (populate params <$> ins)
  = populate params <$> List.filter kept ins.
Proof.
  induction ins as [|e ins IH]; [reflexivity|].
  rewrite fmap_cons. cbn [List.filter].
  replace (kept (populate params e)) with (kept e)
    by (unfold kept; now rewrite name_populate).
  destruct (kept e); rewrite ?fmap_cons, IH; reflexivity.
Qed.

(** The fields of an upload made on the answer [params], from the form. *)
Lemma form_fields_populated (ins : list Input) (params : Params) (st : State) :
  inputs st = populate params <$> ins →
  formData st = getSanitizedData ins →
  form_fields st
  = (λ e, (name e, value (populate params e))) <$> List.filter kept ins.
Proof.
  intros Hi Hf. unfold form_fields. rewrite Hf, getSanitizedData_kept, Hi.
  rewrite <- (find_kept_names ins (populate params <$> ins)).
  - rewrite (omap_lookup_find (λ e, (name e, value e))).
    rewrite filter_kept_populate, <- list_fmap_compose.
    apply list_fmap_ext. intros i e _. simpl. now rewrite name_populate.
  - rewrite <- list_fmap_compose. apply list_fmap_ext.
    intros i e _. simpl. apply name_populate.
Qed.

Lemma step_url (st : State) (ev : Event) : url (step st ev).1 = url st.
Proof.
  destruct ev as [b | fs | id params | id | ]; cbn [step]; try reflexivity.
  - now destruct (buttons st !! b).
  - destruct (List.find (is_request id) (pending st)) as [data|]; [|reflexivity].
    now rewrite policy_done_state.
Qed.

Lemma step_formData (st : State) (ev : Event) : formData (step st ev).1 = formData st.
Proof.
  destruct ev as [b | fs | id params | id | ]; cbn [step]; try reflexivity.
  - now destruct (buttons st !! b).
  - destruct (List.find (is_request id) (pending st)) as [data|]; [|reflexivity].
    now rewrite policy_done_state.
Qed.

(** An upload among the actions of one event is all that the event does:
    it is the answer to the policy request of its selection. *)
Lemma step_post_exact (st : State) (ev : Event) (acts1 acts2 : list Action)
    (u : option string) (fields : list (string * string)) (d : Data) :
  (step st ev).2 = acts1 ++ Post u fields d :: acts2 →
  ∃ params,
    ev = PolicyDone (data_id d) params ∧ d ∈ pending st
    ∧ acts1 = [] ∧ acts2 = []
    ∧ u = url st
    ∧ inputs (step st ev).1 = populate params <$> inputs st
    ∧ fields = form_fields (step st ev).1.
Proof.
  intros Hs.
  assert (Hin : Post u fields d ∈ (step st ev).2)
    by (rewrite Hs; apply elem_of_app; right; left).
  apply step_post_inv in Hin as (params & -> & Hd).
  exists params. split; [reflexivity|]. split; [exact Hd|].
  cbn [step] in Hs |- *.
  destruct (List.find (is_request (data_id d)) (pending st)) as [data|];
    [|now destruct acts1].
  rewrite policy_done_actions in Hs.
  destruct acts1 as [|a acts1]; [|injection Hs as _ Hs; now destruct acts1].
  injection Hs as Hu Hf Hd' Ha. subst.
  split; [reflexivity|]. split; [reflexivity|]. split; [reflexivity|].
  split; [|reflexivity].
  rewrite policy_done_state. simpl.
  rewrite <- !list_fmap_compose. reflexivity.
Qed.

Lemma selected_before_step (st : State) (tr : list Entry) (ev : Event) :
  selected_before st tr →
  selected_before (step st ev).1 (tr ++ In_ ev :: (Out <$> (step st ev).2)).
Proof.
  intros H d Hd. apply elem_of_app.
  apply step_pending in Hd as [(Hd & _) | (fs & -> & ->)].
  - left. now apply H.
  - right. left.
Qed.

(** The fields of an upload of a run. *)
Lemma run_post_fields (ins : list Input) (bs : list Button)
    (evs : list Event) (before after : list Entry)
    (u : option string) (fields : list (string * string)) (d : Data) :
  (run (init ins bs) evs).2 = before ++ Out (Post u fields d) :: after →
  ∃ params,
    PolicyDone (data_id d) params ∈ evs
    ∧ fields = (λ e, (name e, value (populate params e))) <$> List.filter kept ins.
Proof.
  intros H.
  apply run_out_inv in H as (evs1 & ev & evs2 & acts1 & acts2 & E & Hs & Hb & Ha).
  apply step_post_exact in Hs as (params & -> & Hd & -> & -> & -> & Hi & ->).
  exists params. split; [rewrite E; apply elem_of_app; right; left|].
  apply form_fields_populated.
  - rewrite Hi. apply populate_inputs, script_inputs_kept.
  - rewrite step_formData.
    apply (run_state_invariant (λ s, formData s = getSanitizedData ins)).
    + intros st ev Hst. now rewrite step_formData.
    + reflexivity.
Qed.

(** X6: every upload of a run goes to the bucket URL read from the form when
    it was set up; it comes right after the answer to the policy request
    of a selection made before; and its fields are, in document order, the
    inputs of the form whose name neither starts with [x-amz-meta-] nor is
    [file], each with the value the form gave it, but [key], [policy] and
    [signature], which have the values of that answer.  Nothing of an
    earlier answer is left in it. *)
Theorem upload_request_exact (ins : list Input) (bs : list Button)
    (evs : list Event) (before after : list Entry)
    (u : option string) (fields : list (string * string)) (d : Data) :
  (run (init ins bs) evs).2 = before ++ Out (Post u fields d) :: after →
  u = bucket_url ins
  ∧ ∃ before' params,
      before = before' ++ [In_ (PolicyDone (data_id d) params)]
      ∧ In_ (Add (files d)) ∈ before'
      ∧ fields
        = (λ e, (name e,
                 if String.eqb (name e) "signature" then signature params
                 else if String.eqb (name e) "policy" then policy params
                 else if String.eqb (name e) "key" then key params
                 else value e))
            <$> List.filter kept ins.
Proof.
  intros H.
  apply run_out_inv in H as (evs1 & ev & evs2 & acts1 & acts2 & E & Hs & Hb & Ha).
  set (st1 := (run (init ins bs) evs1).1) in *.
  apply step_post_exact in Hs as (params & -> & Hd & -> & -> & -> & Hi & ->).
  split.
  - subst st1. apply (run_state_invariant (λ s, url s = bucket_url ins)).
    + intros st ev Hst. now rewrite step_url.
    + reflexivity.
  - exists (run (init ins bs) evs1).2, params.
    split; [exact Hb|]. split.
    + refine (run_invariant selected_before selected_before_step
                evs1 (init ins bs) [] _ d Hd).
      intros d' Hd'. inversion Hd'.
    + rewrite (form_fields_populated ins params).
      * apply list_fmap_ext. intros i e _. now rewrite value_populate.
      * rewrite Hi. apply populate_inputs, script_inputs_kept.
      * rewrite step_formData. subst st1.
        apply (run_state_invariant (λ s, formData s = getSanitizedData ins)).
        -- intros st ev Hst. now rewrite step_formData.
        -- reflexivity.
Qed.

(** X7: an upload never carries an input whose name starts with
    [x-amz-meta-] (the bucket URL, the policy endpoint) nor an input named
    [file] among its fields. *)
Theorem upload_never_sends_meta_or_file (ins : list Input) (bs : list Button)
    (evs : list Event) (before after : list Entry)
    (u : option string) (fields : list (string * string)) (d : Data) :
  (run (init ins bs) evs).2 = before ++ Out (Post u fields d) :: after →
  ∀ n v, (n, v) ∈ fields →
    String.prefix "x-amz-meta-" n = false ∧ n ≠ "file" ∧ n ∈ name <$> ins.
Proof.
  intros H n v Hin.
  apply run_post_fields in H as (params & _ & ->).
  apply list_elem_of_fmap in Hin as (e & [= -> ->] & He).
  apply list_elem_of_In, filter_In in He as [He Hk].
  apply andb_true_iff in Hk as [H1 H2].
  apply negb_true_iff in H1, H2.
  split; [exact H1|]. split; [now apply String.eqb_neq|].
  apply list_elem_of_fmap_2. now apply list_elem_of_In.
Qed.

(** *** Selections, policy requests, uploads *)












Lemma step_inputs_answer (st : State) (ev : Event) :
  inputs (step st ev).1 = inputs st
  ∨ ∃ id params, ev = PolicyDone id params
                 ∧ inputs (step st ev).1 = populate params <$> inputs st.
Proof.
  destruct ev as [b | fs | id params | id | ]; cbn [step].
  - left. now destruct (buttons st !! b).
  - now left.
  - destruct (List.find (is_request id) (pending st)) as [data|]; [|now left].
    right. exists id, params. split; [reflexivity|].
    rewrite policy_done_state. simpl.
    rewrite <- !list_fmap_compose. reflexivity.
  - now left.
  - now left.
Qed.

Lemma elem_of_run_events (evs : list Event) (st : State) (ev : Event) :
  In_ ev ∈ (run st evs).2 ↔ ev ∈ evs.
Proof.
  revert st. induction evs as [|e evs IH]; intros st.
  - simpl. split; intros H; inversion H.
  - rewrite run_cons. cbn [snd].
    rewrite !elem_of_cons, elem_of_app, IH, list_elem_of_fmap. split.
    + intros [[= ->] | [(a & [=] & _) | H]]; [now left | now right].
    + intros [-> | H]; [now left | right; now right].
Qed.

(** X5: the inputs of the page hold one answer at a time, whole: in every
    run they are the inputs of the form as they were, or the inputs of the
    form with the three values of one policy answer of the run written
    in; never values of two answers side by side. *)
Theorem inputs_hold_one_answer (ins : list Input) (bs : list Button)
    (evs : list Event) :
  inputs (run (init ins bs) evs).1 = ins
  ∨ ∃ id params,
      PolicyDone id params ∈ evs
      ∧ inputs (run (init ins bs) evs).1 = populate params <$> ins.
Proof.
  assert (H : inputs (run (init ins bs) evs).1 = ins
              ∨ ∃ id params,
                  In_ (PolicyDone id params) ∈ [] ++ (run (init ins bs) evs).2
                  ∧ inputs (run (init ins bs) evs).1 = populate params <$> ins).
  { refine (proj2 (run_invariant
              (λ s tr, Forall2 same_input ins (inputs s)
                       ∧ (inputs s = ins
                          ∨ ∃ id params, In_ (PolicyDone id params) ∈ tr
                                         ∧ inputs s = populate params <$> ins))
              _ evs (init ins bs) [] _)).
    - intros st tr ev [Hk H]. split; [now apply same_inputs_step|].
      destruct (step_inputs_answer st ev) as [-> | (id & params & -> & ->)].
      + destruct H as [H | (i & q & Hin & H)]; [now left | right].
        exists i, q. split; [apply elem_of_app; now left | exact H].
      + right. exists id, params. split; [apply elem_of_app; right; left|].
        now apply (populate_inputs params).
    - split; [|now left]. simpl.
      apply Forall_Forall2_diag, Forall_forall. intros e _.
      apply same_input_refl. }
  destruct H as [H | (id & params & Hin & H)]; [now left | right].
  exists id, params. split; [|exact H].
  now apply (elem_of_run_events evs (init ins bs)).
Qed.

(** *** The button *)

Lemma buttons_run (evs : list Event) (st : State) :
  Done ∉ evs → buttons (run st evs).1 = buttons st.
Proof.
  revert st. induction evs as [|ev evs IH]; intros st H; [reflexivity|].
  rewrite run_cons. cbn [fst].
  rewrite IH by (intros Hin; apply H; now right).
  apply step_buttons. intros ->. apply H. left.
Qed.

Lemma find_type_same (t : string) (ins dom : list Input) :
  Forall2 same_input ins dom →
  find (input_type t) dom = find (input_type t) ins.
Proof.
  intros H. unfold find. rewrite <- (Forall2_length _ _ _ H).
  apply filter_ext. intros i.
  pose proof (proj1 (Forall2_lookup _ _ _) H i) as Hi.
  destruct Hi as [e e' (_ & Ht & _) | ]; [|reflexivity].
  unfold input_type. now rewrite Ht.
Qed.

(** X1: until an upload completes, a click on a button of a form that was
    set up (its buttons had no click handler before) clicks each file
    input of the form exactly once: one file dialog for each, and nothing
    else happens. *)
Theorem click_opens_each_file_input_once (ins : list Input) (bs : list Button)
    (evs : list Event) (b : nat) :
  Forall (λ x, click x = []) bs →
  Done ∉ evs →
  (b < length bs)%nat →
  step (run (init ins bs) evs).1 (Click b)
  = ((run (init ins bs) evs).1, FileDialog <$> find (input_type "file") ins).
Proof.
  intros Hbs Hdone Hb. cbn [step].
  rewrite buttons_run by exact Hdone. cbn [init buttons].
  rewrite !list_lookup_fmap.
  destruct (lookup_lt_is_Some_2 bs b Hb) as [x Hx]. rewrite Hx. simpl.
  assert (Hc : click x = []).
  { apply (proj1 (Forall_forall _ _) Hbs). eapply list_elem_of_lookup_2, Hx. }
  rewrite Hc. simpl. rewrite app_nil_r.
  now rewrite (find_type_same "file" ins) by apply script_inputs_kept.
Qed.

Lemma strip_prefix_append (pat s : string) :
  JS.strip_prefix pat (pat +:+ s) = Some s.
Proof.
  induction pat as [|c pat IH]; [now destruct s|].
  rewrite append_cons. simpl. now rewrite Ascii.eqb_refl.
Qed.

Lemma replace_eq (pat rep s : string) :
  JS.replace pat rep s
  = match JS.strip_prefix pat s with
    | Some rest => rep +:+ rest
    | None =>
        match s with
        | EmptyString => EmptyString
        | String c s' => String c (JS.replace pat rep s')
        end
    end.
Proof. now destruct s. Qed.

Lemma replace_prefixed (pat rep s : string) :
  JS.replace pat rep (pat +:+ s) = rep +:+ s.
Proof. now rewrite replace_eq, strip_prefix_append. Qed.

Lemma strip_prefix_none (pat s : string) :
  String.prefix pat s = false → JS.strip_prefix pat s = None.
Proof.
  revert s. induction pat as [|a pat IH]; intros s H.
  - now destruct s.
  - destruct s as [|b s]; [reflexivity|]. simpl in *.
    destruct (ascii_dec a b) as [-> | Hne].
    + rewrite Ascii.eqb_refl. now apply IH.
    + apply Ascii.eqb_neq in Hne. now rewrite Hne.
Qed.

(** [replace] leaves a string without the pattern as it is. *)
Lemma replace_absent (pat rep s : string) :
  JS.indexOf s pat = (-1)%Z → JS.replace pat rep s = s.
Proof.
  unfold JS.indexOf.
  destruct (String.index 0 pat s) as [n|] eqn:E; [lia|]. intros _.
  induction s as [|c s IH].
  - rewrite replace_eq. destruct pat; [discriminate | reflexivity].
  - cbn [String.index] in E.
    destruct (String.prefix pat (String c s)) eqn:P; [discriminate|].
    destruct (String.index 0 pat s) as [n|] eqn:E'; [discriminate|].
    rewrite replace_eq, (strip_prefix_none _ _ P). now rewrite IH.
Qed.

Lemma append_nil_r (s : string) : s +:+ "" = s.
Proof. induction s as [|c s IH]; [reflexivity|]. rewrite append_cons. now rewrite IH. Qed.

Lemma concat_empty_cons (x : string) (l : list string) :
  String.concat "" (x :: l) = x +:+ String.concat "" l.
Proof. destruct l; simpl; [now rewrite append_nil_r | reflexivity]. Qed.

Lemma elem_of_done_buttons (st : State) (b : Button) :
  b ∈ buttons (step st Done).1 →
  text b = JS.replace "Upload " "" (get_text (buttons st)) +:+ " Uploaded!"
  ∧ click b = []
  ∧ ∃ b0, b0 ∈ buttons st ∧ classes b = JS.addClass "completed" (classes b0).
Proof.
  intros Hb. simpl in Hb.
  apply list_elem_of_fmap in Hb as (b2 & -> & Hb).
  apply list_elem_of_fmap in Hb as (b1 & -> & Hb).
  apply list_elem_of_fmap in Hb as (b0 & -> & Hb).
  split; [simpl; now rewrite !get_text_fmap|]. split; [reflexivity|].
  now exists b0.
Qed.

Lemma done_buttons_eq (st st' : State) :
  buttons st = buttons st' →
  buttons (step st Done).1 = buttons (step st' Done).1.
Proof. intros H. cbn [step done fst set_buttons buttons]. now rewrite H. Qed.

(** X2: the label of a completed upload.  With one button labelled [t], the
    label after set-up and completion is [t Uploaded!], whatever [t] holds
    and whatever happened in between: the prefix put at set-up is the one
    taken away.  With several buttons every label is made of the labels of
    all of them: all the labels in a row, then that row again with its
    ["Upload "] once for each further button. *)
Theorem label_after_completion (ins : list Input) (bs : list Button)
    (evs : list Event) :
  Done ∉ evs →
  (∀ b, b ∈ buttons (run (init ins bs) (evs ++ [Done])).1 →
     text b = get_text bs
              +:+ String.concat ""
                    (replicate (length bs - 1) ("Upload " +:+ get_text bs))
              +:+ " Uploaded!")
  ∧ (∀ b0, bs = [b0] →
       buttons (run (init ins bs) (evs ++ [Done])).1
       = [ {| classes := JS.addClass "completed" (classes b0);
              text := text b0 +:+ " Uploaded!";
              click := [] |} ]).
Proof.
  intros Hdone.
  assert (Hrun : buttons (run (init ins bs) (evs ++ [Done])).1
                 = buttons (step (init ins bs) Done).1).
  { rewrite run_app, run_cons. cbn [fst run].
    apply done_buttons_eq. now apply buttons_run. }
  split.
  - intros b Hb. rewrite Hrun in Hb.
    apply elem_of_done_buttons in Hb as (-> & _). cbn [buttons init].
    destruct bs as [|b0 bs']; [reflexivity|].
    set (bs := b0 :: bs').
    assert (T : get_text (bind_click ClickFileInput <$> bs) = get_text bs)
      by (now apply get_text_fmap).
    rewrite T. unfold get_text at 1.
    rewrite <- list_fmap_compose.
    rewrite (const_fmap _ _ ("Upload " +:+ get_text bs)) by reflexivity.
    rewrite length_fmap.
    replace (length bs - 1) with (length bs') by (subst bs; simpl; lia).
    change (length bs) with (S (length bs')). cbn [replicate].
    rewrite concat_empty_cons, append_assoc, replace_prefixed, append_nil.
    now rewrite append_assoc.
  - intros b0 ->. rewrite Hrun. cbn [step done set_buttons buttons init fst].
    cbn [fmap list_fmap get_text String.concat text bind_click set_text
         addClass unbind_click classes click].
    rewrite replace_prefixed. reflexivity.
Qed.

(** X3: when the labels of the buttons hold no ["Upload "], the completion
    callback only adds [" Uploaded!"] to them: a second completed upload
    of a form turns [t Uploaded!] into [t Uploaded! Uploaded!]. *)
Theorem completion_appends_when_no_prefix (st : State) :
  JS.indexOf (get_text (buttons st)) "Upload " = (-1)%Z →
  ∀ b, b ∈ buttons (step st Done).1 →
    text b = get_text (buttons st) +:+ " Uploaded!".
Proof.
  intros H b Hb. apply elem_of_done_buttons in Hb as (-> & _).
  now rewrite (replace_absent _ _ _ H).
Qed.

(** *** The properties on the form of the site *)

Ltac not_among :=
  let H := fresh in
  intros H; repeat (apply elem_of_cons in H as [H | H]; [discriminate|]);
  inversion H.

Example sample_two_buttons :
  buttons (run (init sample_form
                  [ {| classes := []; text := "CV"; click := [] |};
                    {| classes := []; text := "Photo"; click := [] |} ])
               [Done]).1
  = [ {| classes := ["completed"];
         text := "CVPhotoUpload CVPhoto Uploaded!"; click := [] |};
      {| classes := ["completed"];
         text := "CVPhotoUpload CVPhoto Uploaded!"; click := [] |} ].
Proof. reflexivity. Qed.

Lemma upload_request_exact_witness :
  Some "https://bucket.s3" = bucket_url sample_form
  ∧ ∃ before' params,
      [In_ (Click 0); Out (FileDialog 5); In_ (Add ["cv.pdf"]);
       Out (Get (Some "/policy") 0); In_ (PolicyDone 0 sample_params)]
      = before' ++ [In_ (PolicyDone (data_id sample_data) params)]
      ∧ In_ (Add (files sample_data)) ∈ before'
      ∧ [("key", "resumes/42.pdf"); ("policy", "eyJleHAiOjF9"); ("signature", "c2ln")]
        = (λ e, (name e,
                 if String.eqb (name e) "signature" then signature params
                 else if String.eqb (name e) "policy" then policy params
                 else if String.eqb (name e) "key" then key params
                 else value e))
            <$> List.filter kept sample_form.
Proof.
  apply (upload_request_exact sample_form [sample_button]
           [Click 0; Add ["cv.pdf"]; PolicyDone 0 sample_params; Done]
           [In_ (Click 0); Out (FileDialog 5); In_ (Add ["cv.pdf"]);
            Out (Get (Some "/policy") 0); In_ (PolicyDone 0 sample_params)]
           [In_ Done; Out (ConsoleLog "done")]).
  reflexivity.
Defined.

Lemma upload_never_sends_meta_or_file_witness :
  ∃ fields, fields = [("key", "resumes/42.pdf"); ("policy", "eyJleHAiOjF9");
                      ("signature", "c2ln")]
  ∧ ∀ n v, (n, v) ∈ fields →
      String.prefix "x-amz-meta-" n = false ∧ n ≠ "file"
      ∧ n ∈ name <$> sample_form.
Proof.
  eexists. split; [reflexivity|].
  apply (upload_never_sends_meta_or_file sample_form [sample_button]
           [Click 0; Add ["cv.pdf"]; PolicyDone 0 sample_params; Done]
           [In_ (Click 0); Out (FileDialog 5); In_ (Add ["cv.pdf"]);
            Out (Get (Some "/policy") 0); In_ (PolicyDone 0 sample_params)]
           [In_ Done; Out (ConsoleLog "done")]
           (Some "https://bucket.s3") _ sample_data).
  reflexivity.
Defined.

Lemma click_opens_each_file_input_once_witness :
  step (run (init sample_form [sample_button])
            [Click 0; Add ["cv.pdf"]; PolicyDone 0 sample_params]).1 (Click 0)
  = ((run (init sample_form [sample_button])
          [Click 0; Add ["cv.pdf"]; PolicyDone 0 sample_params]).1,
     FileDialog <$> find (input_type "file") sample_form).
Proof.
  apply (click_opens_each_file_input_once sample_form [sample_button]
           [Click 0; Add ["cv.pdf"]; PolicyDone 0 sample_params] 0).
  - repeat constructor.
  - not_among.
  - simpl. lia.
Defined.

Lemma label_after_completion_witness :
  (∀ b, b ∈ buttons (run (init sample_form [sample_button])
                         ([Click 0; Add ["cv.pdf"]; PolicyDone 0 sample_params]
                          ++ [Done])).1 →
     text b = get_text [sample_button]
              +:+ String.concat ""
                    (replicate (length [sample_button] - 1)
                       ("Upload " +:+ get_text [sample_button]))
              +:+ " Uploaded!")
  ∧ (∀ b0, [sample_button] = [b0] →
       buttons (run (init sample_form [sample_button])
                    ([Click 0; Add ["cv.pdf"]; PolicyDone 0 sample_params]
                     ++ [Done])).1
       = [ {| classes := JS.addClass "completed" (classes b0);
              text := text b0 +:+ " Uploaded!";
              click := [] |} ]).
Proof.
  apply (label_after_completion sample_form [sample_button]
           [Click 0; Add ["cv.pdf"]; PolicyDone 0 sample_params]).
  not_among.
Defined.

Lemma completion_appends_when_no_prefix_witness :
  JS.indexOf "Resume Uploaded!" "Upload " = (-1)%Z
  ∧ ∀ b, b ∈ buttons (step (run (init sample_form [sample_button]) [Done]).1 Done).1 →
      text b = "Resume Uploaded!" +:+ " Uploaded!".
Proof.
  split; [reflexivity|].
  apply (completion_appends_when_no_prefix
           (run (init sample_form [sample_button]) [Done]).1).
  reflexivity.
Defined.

End UploadMore.

(** ** The confirmation form controller *)

Module ConfirmationMore.

Import Json Confirmation ConfirmationFacts.

(** X10: [validate] checks nothing: whatever the fields hold, all empty or
    full of quotes and backslashes, it shows the overlay and sends the one
    PUT, changing nothing else of the page; and the body always reads back
    as the object of the six fields. *)
Theorem validate_checks_nothing (p : Page) :
  ∃ body,
    validate p
    = (Returned (),
       set_requests
         (requests p ++
            [ {| Ajax.url := "/admits"; Ajax.type := "PUT";
                 Ajax.contentType := "application/json"; Ajax.dataType := "json";
                 Ajax.data := Some body |} ])
         (set_dimmer true p))
    ∧ parse body
      = Some (JObject [ ("badge", JString (badge (fields p)));
                        ("phone", JString (phone (fields p)));
                        ("shirt", JString (shirt (fields p)));
                        ("diet", JString (diet (fields p)));
                        ("waiver", JString (waiver (fields p)));
                        ("photoRelease", JString (photoRelease (fields p))) ]).
Proof.
  exists (confirmation_text (fields p)). split.
  - unfold validate. rewrite submitConfirmation_eq, serialize_confirmation.
    reflexivity.
  - apply parse_confirmation_text.
Qed.

Lemma respond_eq (JSON_parse : string → option Value) (r : Response) (p : Page) :
  ∃ o cs es m ts,
    respond JSON_parse r p
    = (o, set_timers ts (set_dimmer_message m
            (set_form_errors es (set_form_classes cs (set_dimmer false p)))))
    ∧ (ts = timers p ∨ ∃ data, r = Succeeded data).
Proof.
  destruct r as [data | text]; cbn [respond].
  - exists (Returned ()), (form_classes p), (form_errors p),
      (Some ("Your confirmation has been saved!", "And now we wait...")),
      (timers p ++ [(now p + 1500, GoToDashboard)]).
    split; [reflexivity | right; now exists data].
  - rewrite error_eq.
    destruct (JSON_parse text) as [v|]; [destruct (message v) as [m|]|].
    + exists (Returned ()),
        (JS.addClass "error" (JS.removeClass "success" (form_classes p))),
        [m], (dimmer_message p), (timers p).
      split; [reflexivity | now left].
    + exists (Thrown TypeError), (form_classes p), (form_errors p),
        (dimmer_message p), (timers p).
      split; [now destruct p | now left].
    + exists (Thrown SyntaxError), (form_classes p), (form_errors p),
        (dimmer_message p), (timers p).
      split; [now destruct p | now left].
Qed.

(** X11: the overlay is up from the sending of the confirmation to its
    answer, and no longer: whatever the answer, a success or an error with
    any body, also one on which the callback throws, the overlay is hidden
    afterwards; and the callbacks send no request of their own. *)
Theorem overlay_shown_until_the_answer (JSON_parse : string → option Value)
    (r : Response) (p : Page) :
  dimmer (validate p).2 = true
  ∧ dimmer (respond JSON_parse r (validate p).2).2 = false
  ∧ requests (respond JSON_parse r (validate p).2).2 = requests (validate p).2
  ∧ fields (respond JSON_parse r (validate p).2).2 = fields p.
Proof.
  split; [reflexivity|].
  destruct (respond_eq JSON_parse r (validate p).2) as (o & cs & es & m & ts & -> & _).
  now repeat split.
Qed.

(** X12: only a success answer makes the page leave: neither sending the
    confirmation nor an error answer, whatever its body, sets a timer or
    changes the address, so that the page is, at any later time, where it
    would have been without them. *)
Theorem only_success_navigates (JSON_parse : string → option Value)
    (responseText : string) (p : Page) (ms : nat) :
  location (elapse ms (validate p).2) = location (elapse ms p)
  ∧ location (elapse ms (error JSON_parse responseText p).2) = location (elapse ms p)
  ∧ timers (validate p).2 = timers p
  ∧ timers (error JSON_parse responseText p).2 = timers p.
Proof.
  rewrite !location_elapse.
  destruct (respond_eq JSON_parse (Failed responseText) p)
    as (o & cs & es & m & ts & E & [-> | (data & [=])]).
  cbn [respond] in E. rewrite E. now repeat split.
Qed.

End ConfirmationMore.
